(** * drizzle-transactional: the transaction propagation engine

    A shallow embedding of the library's run-time modules

      - [context/async-local-storage]  (src/enums/storage-driver.ts, second part)
      - [hooks/index.ts]
      - [drizzle/database-manager.ts]
      - [transactions/wrap-in-transaction.ts]  (src/unnamed/part_000)
      - [storage/index.ts], [errors/transactional.ts]
      - [utils/index.ts]  ([memoize])

    as functions of a state-and-exception monad over an explicit [World].
    JavaScript objects that the code shares by reference (the [Map] held by
    [AsyncLocalStorage], each [EventEmitter]) live in heaps indexed by
    object identity, so that copying a store and aliasing an emitter are
    distinguished exactly as the source distinguishes them.  The code
    [await]s every promise it creates, hence one logical call chain is a
    sequential computation; interleaving of unrelated call chains is not
    modelled. *)

From stdpp Require Import gmap strings list fin_maps.

Set Default Proof Using "Type".

(** ** Values, errors and events *)

Definition Handle := nat.
Definition Row := nat.

(** [DrizzleTransactionalError] codes, plus the errors of user code and of
    the database driver. *)
Inductive Error : Type :=
  | NOT_INITIALIZED
  | DATABASE_NOT_FOUND (name : string)
  | DATABASE_ALREADY_REGISTERED (name : string)
  | PROPAGATION_MANDATORY
  | PROPAGATION_NEVER
  | PROPAGATION_UNKNOWN (propagation : string)
  | CONTEXT_NO_CONTEXT
  | CONTEXT_NO_HOOK
  | NoTransactionDatabase
  | TypeError
  | DriverError (h : nat)
  | UserError (n : nat).

#[global] Instance Error_eq_dec : EqDecision Error.
Proof. solve_decision. Defined.

(** What a context [Map] can hold under a key. *)
Inductive Value : Type :=
  | VBool (b : bool)
  | VId (id : nat)          (* a transaction id, as made by [randomUUID] *)
  | VHook (emitter : nat)   (* a reference to an [EventEmitter] object *)
  | VData (n : nat).        (* anything else user code stores *)

#[global] Instance Value_eq_dec : EqDecision Value.
Proof. solve_decision. Defined.

(** JavaScript truthiness, as used by [if (!x)] and [x ?? false]. *)
Definition truthy (v : option Value) : bool :=
  match v with
  | None => false
  | Some (VBool b) => b
  | Some (VId _) => true
  | Some (VHook _) => true
  | Some (VData n) => negb (n =? 0)
  end.

Inductive EventKind : Type := Commit | Rollback | End.

#[global] Instance EventKind_eq_dec : EqDecision EventKind.
Proof. solve_decision. Defined.

(** A listener is a user callback.  The engine can observe of it that it
    was called, with which argument, and whether it threw. *)
Record Listener : Type := mkListener {
  tag : nat;
  throws : option Error;
}.

#[global] Instance Listener_eq_dec : EqDecision Listener.
Proof. solve_decision. Defined.

(** The object a query is executed on: a registered base database or the
    handle of an open driver transaction. *)
Inductive Target : Type :=
  | BaseDb (h : Handle)
  | TxDb (tx : nat).

#[global] Instance Target_eq_dec : EqDecision Target.
Proof. solve_decision. Defined.

(** The observable history of a run. *)
Inductive Event : Type :=
  | DbBegin (h : Handle) (tx : nat) (isolationLevel : option string)
  | DbStatement (on : Target) (row : Row)
  | DbCommit (tx : nat)
  | DbRollback (tx : nat)
  | Fired (kind : EventKind) (tag : nat) (arg : option Error)
  | Warned.

#[global] Instance Event_eq_dec : EqDecision Event.
Proof. solve_decision. Defined.



(** ** EventEmitter objects *)

Record Emitter : Type := mkEmitter {
  onCommit : list Listener;
  onRollback : list Listener;
  onEnd : list Listener;
}.

Definition newEmitter : Emitter := mkEmitter [] [] [].

Definition listeners (kind : EventKind) (e : Emitter) : list Listener :=
  match kind with
  | Commit => onCommit e
  | Rollback => onRollback e
  | End => onEnd e
  end.

Definition setListeners (kind : EventKind) (ls : list Listener) (e : Emitter)
  : Emitter :=
  match kind with
  | Commit => mkEmitter ls (onRollback e) (onEnd e)
  | Rollback => mkEmitter (onCommit e) ls (onEnd e)
  | End => mkEmitter (onCommit e) (onRollback e) ls
  end.

(** ** The world *)

Inductive Fault : Type := BeginFails | CommitFails.

Record World : Type := mkWorld {
  (* storage/index.ts: data.initialized *)
  initialized : bool;
  (* database-manager.ts: the two module-level Maps *)
  registeredDatabases : gmap string Handle;
  transactionDatabases : gmap nat nat;
  (* async-local-storage: the Map objects and asyncLocalStorage.getStore() *)
  maps : gmap nat (gmap string Value);
  currentStore : option nat;
  (* the EventEmitter objects *)
  emitters : gmap nat Emitter;
  (* supply of object identities and UUIDs *)
  nextObject : nat;
  (* the database driver: committed rows, open transactions, injected faults *)
  committed : list (Handle * Row);
  pending : gmap nat (Handle * list Row);
  driverFault : nat -> option Fault;
  (* everything observable that happened so far, oldest first *)
  journal : list Event;
}.

Definition setInitialized (b : bool) (w : World) : World :=
  mkWorld b (registeredDatabases w) (transactionDatabases w) (maps w)
    (currentStore w) (emitters w) (nextObject w) (committed w) (pending w)
    (driverFault w) (journal w).

Definition setRegisteredDatabases (m : gmap string Handle) (w : World) : World :=
  mkWorld (initialized w) m (transactionDatabases w) (maps w)
    (currentStore w) (emitters w) (nextObject w) (committed w) (pending w)
    (driverFault w) (journal w).

Definition setTransactionDatabases (m : gmap nat nat) (w : World) : World :=
  mkWorld (initialized w) (registeredDatabases w) m (maps w)
    (currentStore w) (emitters w) (nextObject w) (committed w) (pending w)
    (driverFault w) (journal w).

Definition setMaps (m : gmap nat (gmap string Value)) (w : World) : World :=
  mkWorld (initialized w) (registeredDatabases w) (transactionDatabases w) m
    (currentStore w) (emitters w) (nextObject w) (committed w) (pending w)
    (driverFault w) (journal w).

Definition setCurrentStore (c : option nat) (w : World) : World :=
  mkWorld (initialized w) (registeredDatabases w) (transactionDatabases w)
    (maps w) c (emitters w) (nextObject w) (committed w) (pending w)
    (driverFault w) (journal w).

Definition setEmitters (m : gmap nat Emitter) (w : World) : World :=
  mkWorld (initialized w) (registeredDatabases w) (transactionDatabases w)
    (maps w) (currentStore w) m (nextObject w) (committed w) (pending w)
    (driverFault w) (journal w).

Definition setNextObject (n : nat) (w : World) : World :=
  mkWorld (initialized w) (registeredDatabases w) (transactionDatabases w)
    (maps w) (currentStore w) (emitters w) n (committed w) (pending w)
    (driverFault w) (journal w).

Definition setCommitted (c : list (Handle * Row)) (w : World) : World :=
  mkWorld (initialized w) (registeredDatabases w) (transactionDatabases w)
    (maps w) (currentStore w) (emitters w) (nextObject w) c (pending w)
    (driverFault w) (journal w).

Definition setPending (p : gmap nat (Handle * list Row)) (w : World) : World :=
  mkWorld (initialized w) (registeredDatabases w) (transactionDatabases w)
    (maps w) (currentStore w) (emitters w) (nextObject w) (committed w) p
    (driverFault w) (journal w).

Definition record (e : Event) (w : World) : World :=
  mkWorld (initialized w) (registeredDatabases w) (transactionDatabases w)
    (maps w) (currentStore w) (emitters w) (nextObject w) (committed w)
    (pending w) (driverFault w) (journal w ++ [e]).

(** ** Computations that read and change the world and may throw *)

Inductive Result (A : Type) : Type :=
  | Ok (a : A)
  | Thrown (e : Error).
Arguments Ok {A} a.
Arguments Thrown {A} e.

Definition M (A : Type) : Type := World -> Result A * World.

Definition ret {A} (a : A) : M A := fun w => (Ok a, w).

Definition throw {A} (e : Error) : M A := fun w => (Thrown e, w).

Definition bind {A B} (m : M A) (k : A -> M B) : M B := fun w =>
  match m w with
  | (Ok a, w') => k a w'
  | (Thrown e, w') => (Thrown e, w')
  end.

Notation "x <- m ;; k" := (bind m (fun x => k))
  (at level 100, m at next level, right associativity).
Notation "m ;;; k" := (bind m (fun _ => k))
  (at level 100, right associativity).

(** [try { body } catch (error) { handler(error) }] *)
Definition tryCatch {A} (body : M A) (handler : Error -> M A) : M A := fun w =>
  match body w with
  | (Ok a, w') => (Ok a, w')
  | (Thrown e, w') => handler e w'
  end.

(** [try { body } finally { cleanup }]; an exception of [cleanup] replaces
    the outcome of [body]. *)
Definition tryFinally {A} (body : M A) (cleanup : M unit) : M A := fun w =>
  match body w with
  | (r, w') =>
      match cleanup w' with
      | (Ok _, w'') => (r, w'')
      | (Thrown e, w'') => (Thrown e, w'')
      end
  end.

Definition get {A} (f : World -> A) : M A := fun w => (Ok (f w), w).
Definition modify (f : World -> World) : M unit := fun w => (Ok tt, f w).

(** A new object identity (also used for [randomUUID()]). *)
Definition freshObject : M nat := fun w =>
  (Ok (nextObject w), setNextObject (S (nextObject w)) w).

(** ** context/async-local-storage *)

(** [asyncLocalStorage.run(store, fn)]: [store] is the current store while
    [fn] runs, and the previous one again when [fn] has settled. *)
Definition asyncLocalStorage_run {A} (store : nat) (fn : M A) : M A := fun w =>
  let previous := currentStore w in
  match fn (setCurrentStore (Some store) w) with
  | (r, w') => (r, setCurrentStore previous w')
  end.

(** [new Map(iterable)] *)
Definition newMap (content : gmap string Value) : M nat :=
  r <- freshObject ;;
  modify (fun w => setMaps (<[r := content]> (maps w)) w) ;;;
  ret r.

Definition getStore : M (option nat) := get currentStore.

Definition mapContent (store : option nat) : M (gmap string Value) :=
  get (fun w => match store with
                | Some r => default ∅ (maps w !! r)
                | None => ∅
                end).

Definition runWithContext {A} (context : list (string * Value)) (fn : M A)
  : M A :=
  currentStore <- getStore ;;
  if bool_decide (currentStore = None) && bool_decide (context = []) then
    store <- newMap ∅ ;;
    asyncLocalStorage_run store fn
  else
    content <- mapContent currentStore ;;
    newStore <- newMap (foldl (fun m kv => <[kv.1 := kv.2]> m) content context) ;;
    asyncLocalStorage_run newStore fn.

Definition getContextValue (key : string) : M (option Value) :=
  store <- getStore ;;
  content <- mapContent store ;;
  ret (match store with Some _ => content !! key | None => None end).

Definition setContextValue (key : string) (value : Value) : M unit :=
  store <- getStore ;;
  match store with
  | Some r =>
      modify (fun w => setMaps (<[r := <[key := value]> (default ∅ (maps w !! r))]> (maps w)) w)
  | None => ret tt
  end.

Definition hasActiveContext : M bool :=
  store <- getStore ;;
  ret (bool_decide (store <> None)).

(** ** EventEmitter methods (Node's [events] module) *)

(** [emitter.once(kind, listener)]: appended after the listeners already
    registered for [kind]. *)
Definition once (emitter : nat) (kind : EventKind) (l : Listener) : M unit :=
  modify (fun w =>
    setEmitters (alter (fun e => setListeners kind (listeners kind e ++ [l]) e)
                       emitter (emitters w)) w).

(** Calling a listener: the call is observable, then it returns or throws. *)
Definition call (kind : EventKind) (arg : option Error) (l : Listener) : M unit :=
  modify (record (Fired kind (tag l) arg)) ;;;
  match throws l with
  | Some e => throw e
  | None => ret tt
  end.

(** The loop of [emitter.emit(kind, arg)] over the listeners present when
    [emit] was called.  A [once] listener is taken off the emitter just
    before it is called; an exception of a listener leaves the loop. *)
Fixpoint emitEach (emitter : nat) (kind : EventKind) (arg : option Error)
  (ls : list Listener) : M unit :=
  match ls with
  | [] => ret tt
  | l :: rest =>
      modify (fun w =>
        setEmitters (alter (setListeners kind rest) emitter (emitters w)) w) ;;;
      call kind arg l ;;;
      emitEach emitter kind arg rest
  end.

Definition emit (emitter : nat) (kind : EventKind) (arg : option Error) : M unit :=
  ls <- get (fun w => match emitters w !! emitter with
                      | Some e => listeners kind e
                      | None => []
                      end) ;;
  emitEach emitter kind arg ls.

Definition removeAllListeners (emitter : nat) : M unit :=
  modify (fun w => setEmitters (alter (fun _ => newEmitter) emitter (emitters w)) w).

(** ** hooks/index.ts *)

Definition HOOK_CONTEXT_KEY : string := "@drizzle-transactional/hook".

Definition getTransactionalContextHook : M nat :=
  active <- hasActiveContext ;;
  if negb active then throw CONTEXT_NO_CONTEXT
  else
    emitter <- getContextValue HOOK_CONTEXT_KEY ;;
    if negb (truthy emitter) then throw CONTEXT_NO_HOOK
    else match emitter with
         | Some (VHook e) => ret e
         | _ => throw TypeError      (* [.once] of something that is no emitter *)
         end.

(** [setMaxListeners] only sets the threshold of a warning and is left out. *)
Definition createEventEmitterInContext : M nat :=
  emitter <- freshObject ;;
  modify (fun w => setEmitters (<[emitter := newEmitter]> (emitters w)) w) ;;;
  setContextValue HOOK_CONTEXT_KEY (VHook emitter) ;;;
  ret emitter.

Definition runAndTriggerHooks {A} (hook : nat) (callback : M A) : M A :=
  tryCatch
    (result <- callback ;;
     emit hook Commit None ;;;
     emit hook End None ;;;
     removeAllListeners hook ;;;
     ret result)
    (fun error =>
     emit hook Rollback (Some error) ;;;
     emit hook End (Some error) ;;;
     removeAllListeners hook ;;;
     throw error).

Definition runOnTransactionCommit (callback : Listener) : M unit :=
  hook <- getTransactionalContextHook ;; once hook Commit callback.

Definition runOnTransactionRollback (callback : Listener) : M unit :=
  hook <- getTransactionalContextHook ;; once hook Rollback callback.

Definition runOnTransactionComplete (callback : Listener) : M unit :=
  hook <- getTransactionalContextHook ;; once hook End callback.

(** ** The database driver (drizzle-orm, outside the repository)

    The engine needs of it what spec section 6 lists: a transaction can be
    begun on a base handle, committed and rolled back, and statements run
    either directly on the base handle (taking effect at once) or on a
    transaction handle (taking effect at commit, discarded at rollback). *)

Definition driverBegin (h : Handle) (isolationLevel : option string) : M nat :=
  tx <- freshObject ;;
  modify (record (DbBegin h tx isolationLevel)) ;;;
  fault <- get (fun w => driverFault w tx) ;;
  match fault with
  | Some BeginFails => throw (DriverError tx)
  | _ => modify (fun w => setPending (<[tx := (h, [])]> (pending w)) w) ;;; ret tx
  end.

Definition driverRollback (tx : nat) : M unit :=
  modify (record (DbRollback tx)) ;;;
  modify (fun w => setPending (delete tx (pending w)) w).

Definition driverCommit (tx : nat) : M unit :=
  modify (record (DbCommit tx)) ;;;
  fault <- get (fun w => driverFault w tx) ;;
  match fault with
  | Some CommitFails => throw (DriverError tx)
  | _ =>
      modify (fun w =>
        match pending w !! tx with
        | Some (h, rows) =>
            setPending (delete tx (pending w))
              (setCommitted (committed w ++ map (pair h) rows) w)
        | None => w
        end)
  end.

(** [baseDatabase.transaction(runner, config)] *)
Definition transaction {A} (h : Handle) (runner : nat -> M A)
  (isolationLevel : option string) : M A :=
  tx <- driverBegin h isolationLevel ;;
  tryCatch
    (result <- runner tx ;; driverCommit tx ;;; ret result)
    (fun error => driverRollback tx ;;; throw error).

(** One statement that writes [row], executed on [on]. *)
Definition statement (on : Target) (row : Row) : M unit :=
  modify (record (DbStatement on row)) ;;;
  match on with
  | BaseDb h => modify (fun w => setCommitted (committed w ++ [(h, row)]) w)
  | TxDb tx =>
      open <- get (fun w => pending w !! tx) ;;
      match open with
      | Some (h, rows) =>
          modify (fun w => setPending (<[tx := (h, rows ++ [row])]> (pending w)) w)
      | None => throw (DriverError tx)
      end
  end.

(** ** drizzle/database-manager.ts *)

Definition CURRENT_DB_ID_KEY : string := "@drizzle-transactional/current-db-id".

Definition addTransactionalDrizzleDatabase (database : Handle) (name : string)
  : M unit :=
  registered <- get registeredDatabases ;;
  if bool_decide (is_Some (registered !! name)) then
    throw (DATABASE_ALREADY_REGISTERED name)
  else
    modify (fun w => setRegisteredDatabases (<[name := database]> (registeredDatabases w)) w).

Definition getDrizzleDatabaseByName (name : string) : M Handle :=
  registered <- get registeredDatabases ;;
  match registered !! name with
  | Some database => ret database
  | None => throw (DATABASE_NOT_FOUND name)
  end.

(** [Map.prototype.delete] answers whether the key was present. *)
Definition removeDrizzleDatabaseByName (name : string) : M bool :=
  registered <- get registeredDatabases ;;
  modify (fun w => setRegisteredDatabases (delete name (registeredDatabases w)) w) ;;;
  ret (bool_decide (is_Some (registered !! name))).

Record TransactionalDatabaseInfo : Type := mkInfo {
  database : Target;
  isTransacting : bool;
  baseDatabase : Handle;
}.

Definition getCurrentDatabaseInfo (name : string) : M TransactionalDatabaseInfo :=
  baseDatabase <- getDrizzleDatabaseByName name ;;
  currentDbId <- getContextValue CURRENT_DB_ID_KEY ;;
  if negb (truthy currentDbId) then
    ret (mkInfo (BaseDb baseDatabase) false baseDatabase)
  else
    transactions <- get transactionDatabases ;;
    match currentDbId with
    | Some (VId id) =>
        match transactions !! id with
        | Some transactionDb => ret (mkInfo (TxDb transactionDb) true baseDatabase)
        | None => throw NoTransactionDatabase
        end
    | _ => throw NoTransactionDatabase    (* no Map key equals this value *)
    end.

(** A statement issued through [createTransactionalDatabaseProxy(name)]:
    the proxy's [get] trap resolves the target at every access. *)
Definition proxyStatement (name : string) (row : Row) : M unit :=
  dbInfo <- getCurrentDatabaseInfo name ;;
  statement (database dbInfo) row.

Definition runInDatabaseTransaction {A} (databaseName : string)
  (isolationLevel : option string) (callback : M A) : M A :=
  baseDatabase <- getDrizzleDatabaseByName databaseName ;;
  transactionId <- freshObject ;;
  let transactionRunner (tx : nat) : M A :=
    modify (fun w =>
      setTransactionDatabases (<[transactionId := tx]> (transactionDatabases w)) w) ;;;
    tryFinally
      (runWithContext [(CURRENT_DB_ID_KEY, VId transactionId)] callback)
      (modify (fun w =>
         setTransactionDatabases (delete transactionId (transactionDatabases w)) w))
  in
  match isolationLevel with
  | Some level =>
      if bool_decide (level = "") then transaction baseDatabase transactionRunner None
      else transaction baseDatabase transactionRunner (Some level)
  | None => transaction baseDatabase transactionRunner None
  end.

(** ** storage/index.ts *)

Definition isDrizzleTransactionalInitialized : M bool := get initialized.

(** The options are checked and stored as well; the engine reads of them
    only [maxHookHandlers], for [setMaxListeners]. *)
Definition initializeDrizzleTransactionalContext : M unit :=
  modify (setInitialized true).

(** ** enums/propagation.ts *)

(** Modelled from the spec: the file enums/propagation.ts is not among the
    sources; section 4.5 of the spec and docs/API-Reference.md list its
    seven members. *)
Inductive Propagation : Type :=
  | REQUIRED
  | REQUIRES_NEW
  | MANDATORY
  | NEVER
  | NOT_SUPPORTED
  | SUPPORTS
  | NESTED.

#[global] Instance Propagation_eq_dec : EqDecision Propagation.
Proof. solve_decision. Defined.

(** What the [propagation] option holds at run time: a member of the enum,
    or a value that names no property of the handler table, so that
    [propagationHandlers[propagation]] is [undefined]. *)
Inductive PropagationValue : Type :=
  | Declared (p : Propagation)
  | Unrecognized (text : string).

(** ** transactions/wrap-in-transaction.ts *)

Record WrapInTransactionOptions : Type := mkOptions {
  databaseName : option string;
  propagation : option PropagationValue;
  isolationLevel : option string;
}.

Definition CURRENT_TRANSACTION_KEY : string :=
  "@drizzle-transactional/current-transaction".

Section Handlers.
Context {A : Type}.

(** A handler receives [currentTransaction], [runOriginal],
    [runWithNewTransaction] and [runWithNewHook], in this order. *)
Definition Handler : Type := bool -> M A -> M A -> M A -> M A.

Definition handleMANDATORY : Handler :=
  fun currentTransaction runOriginal _ _ =>
    if negb currentTransaction then throw PROPAGATION_MANDATORY
    else runOriginal.

Definition handleNESTED : Handler :=
  fun _ _ runWithNewTransaction _ => runWithNewTransaction.

Definition handleNEVER : Handler :=
  fun currentTransaction _ _ runWithNewHook =>
    if currentTransaction then throw PROPAGATION_NEVER
    else runWithNewHook.

Definition handleNOT_SUPPORTED : Handler :=
  fun currentTransaction runOriginal _ runWithNewHook =>
    if currentTransaction then
      runWithContext [(CURRENT_TRANSACTION_KEY, VBool false)] runWithNewHook
    else runOriginal.

Definition handleREQUIRED : Handler :=
  fun currentTransaction runOriginal runWithNewTransaction _ =>
    if currentTransaction then runOriginal else runWithNewTransaction.

Definition handleREQUIRES_NEW : Handler :=
  fun currentTransaction _ runWithNewTransaction runWithNewHook =>
    if currentTransaction then
      modify (record Warned) ;;;
      runWithContext [(CURRENT_TRANSACTION_KEY, VBool false)] runWithNewHook
    else runWithNewTransaction.

Definition handleSUPPORTS : Handler :=
  fun currentTransaction runOriginal _ runWithNewHook =>
    if currentTransaction then runOriginal else runWithNewHook.

(** [propagationHandlers[propagation]] *)
Definition propagationHandlers (p : PropagationValue) : option Handler :=
  match p with
  | Declared MANDATORY => Some handleMANDATORY
  | Declared NESTED => Some handleNESTED
  | Declared NEVER => Some handleNEVER
  | Declared NOT_SUPPORTED => Some handleNOT_SUPPORTED
  | Declared REQUIRED => Some handleREQUIRED
  | Declared REQUIRES_NEW => Some handleREQUIRES_NEW
  | Declared SUPPORTS => Some handleSUPPORTS
  | Unrecognized _ => None
  end.

Definition propagationText (p : PropagationValue) : string :=
  match p with
  | Declared MANDATORY => "MANDATORY"
  | Declared NESTED => "NESTED"
  | Declared NEVER => "NEVER"
  | Declared NOT_SUPPORTED => "NOT_SUPPORTED"
  | Declared REQUIRED => "REQUIRED"
  | Declared REQUIRES_NEW => "REQUIRES_NEW"
  | Declared SUPPORTS => "SUPPORTS"
  | Unrecognized text => text
  end.

Section Wrapper.
Variable fn : M A.
Variable options : WrapInTransactionOptions.

Definition runOriginal : M A := fn.

Definition runWithNewHook : M A :=
  hook <- createEventEmitterInContext ;;
  runAndTriggerHooks hook runOriginal.

Definition runWithNewTransaction : M A :=
  hook <- createEventEmitterInContext ;;
  runAndTriggerHooks hook
    (runInDatabaseTransaction (default "default" (databaseName options))
       (isolationLevel options)
       (runWithContext [(CURRENT_TRANSACTION_KEY, VBool true)] runOriginal)).

Definition executeWithPropagation : M A :=
  currentTransaction <- getContextValue CURRENT_TRANSACTION_KEY ;;
  let propagation := default (Declared REQUIRED) (propagation options) in
  match propagationHandlers propagation with
  | None => throw (PROPAGATION_UNKNOWN (propagationText propagation))
  | Some handler =>
      handler (truthy currentTransaction)
        runOriginal runWithNewTransaction runWithNewHook
  end.

(** The [wrapper] that [wrapInTransaction(fn, options)] returns. *)
Definition wrapInTransaction : M A :=
  ready <- isDrizzleTransactionalInitialized ;;
  if negb ready then throw NOT_INITIALIZED
  else
    active <- hasActiveContext ;;
    if negb active then runWithContext [] executeWithPropagation
    else executeWithPropagation.
End Wrapper.
End Handlers.

(** [runInTransaction(fn, options)] is [wrapInTransaction(fn, options)()]. *)
Definition runInTransaction {A} (fn : M A) (options : WrapInTransactionOptions)
  : M A := wrapInTransaction fn options.

(** ** Operations of user code

    What the body of a wrapped operation can do to the engine: issue a
    statement through the database proxy, register a hook, call another
    wrapped operation, catch what a block throws, write a context value,
    open a context scope, throw, or return. *)
Inductive Op : Type :=
  | Return
  | Raise (e : Error)
  | Insert (name : string) (row : Row) (next : Op)
  | OnEvent (kind : EventKind) (l : Listener) (next : Op)
  | Invoke (options : WrapInTransactionOptions) (body : Op) (next : Op)
  | Try (block : Op) (next : Op)
  | SetValue (key : string) (value : Value) (next : Op)
  | Within (context : list (string * Value)) (body : Op) (next : Op).

Definition runOn (kind : EventKind) (l : Listener) : M unit :=
  match kind with
  | Commit => runOnTransactionCommit l
  | Rollback => runOnTransactionRollback l
  | End => runOnTransactionComplete l
  end.

Fixpoint run (op : Op) : M unit :=
  match op with
  | Return => ret tt
  | Raise e => throw e
  | Insert name row next => proxyStatement name row ;;; run next
  | OnEvent kind l next => runOn kind l ;;; run next
  | Invoke options body next => wrapInTransaction (run body) options ;;; run next
  | Try block next => tryCatch (run block) (fun _ => ret tt) ;;; run next
  | SetValue key value next => setContextValue key value ;;; run next
  | Within context body next => runWithContext context (run body) ;;; run next
  end.

(** ** Worlds to start from *)

Definition healthy : nat -> option Fault := fun _ => None.

(** Nothing registered, not initialized, outside every context. *)
Definition emptyWorld : World :=
  mkWorld false ∅ ∅ ∅ None ∅ 0 [] ∅ healthy [].

(** After [initializeDrizzleTransactionalContext()] and
    [addTransactionalDrizzleDatabase(db)] with database handle 0. *)
Definition startWorld : World :=
  setNextObject 1
    (setRegisteredDatabases {["default" := 0]} (setInitialized true emptyWorld)).

Definition policy (p : Propagation) : WrapInTransactionOptions :=
  mkOptions None (Some (Declared p)) None.

Definition quiet (n : nat) : Listener := mkListener n None.
Definition failing (n : nat) (e : Error) : Listener := mkListener n (Some e).

(** ** More of context/async-local-storage *)

(** [getContext()]: the bindings of the current store as a plain object,
    the empty object outside every context. *)
Definition getContext : M (gmap string Value) :=
  context <- getStore ;;
  mapContent context.

(** ** The database proxy (database-manager.ts, createTransactionalDatabaseProxy)

    What reading a property of the proxy yields.  A property of the
    resolved target is named by target and property name; for a function
    the [get] trap returns it bound to the target, and its method cache
    makes repeated reads return the same bound function. *)
Inductive ProxyValue : Type :=
  | PBool (b : bool)
  | PHandle (h : Handle)
  | PMember (on : Target) (prop : string).

(** The [get] trap. *)
Definition proxyGet (name : string) (prop : string) : M ProxyValue :=
  dbInfo <- getCurrentDatabaseInfo name ;;
  if bool_decide (prop = "isTransacting") then ret (PBool (isTransacting dbInfo))
  else if bool_decide (prop = "baseDatabase") then ret (PHandle (baseDatabase dbInfo))
  else ret (PMember (database dbInfo) prop).

(** The [has] trap; [owns target prop] stands for [prop in target]. *)
Definition proxyHas (owns : Target -> string -> bool) (name : string)
  (prop : string) : M bool :=
  if bool_decide (prop = "isTransacting") || bool_decide (prop = "baseDatabase")
  then ret true
  else
    dbInfo <- getCurrentDatabaseInfo name ;;
    ret (owns (database dbInfo) prop).

(** ** storage/index.ts with its options

    The engine above needs of this module the flag [initialized] alone.
    Here is the module as it is written, over its own global [data]:
    validation of the options, the merge with the defaults, and the
    flag. *)
Module Storage.

(** A value given for an option, as far as the validation tells values
    apart. *)
Inductive JsValue : Type :=
  | Undefined
  | Integer (z : Z)          (* a number for which [Number.isInteger] holds *)
  | OtherNumber (tag : nat)  (* a fraction, NaN, an infinity *)
  | Text (s : string)
  | Other (tag : nat).       (* null, a boolean, an object, ... *)

#[global] Instance JsValue_eq_dec : EqDecision JsValue.
Proof. solve_decision. Defined.

(** An options object: [None] where it has no such property.  The
    resolved options have this shape as well, an object spread copies
    whatever value a property has. *)
Record DrizzleTransactionalOptions : Type := mkTransactionalOptions {
  maxHookHandlers : option JsValue;
  storageDriver : option JsValue;
}.

Record DrizzleTransactionalData : Type := mkData {
  options : DrizzleTransactionalOptions;
  initialized : bool;
}.

Inductive InitError : Type :=
  | MaxHookHandlersNotPositiveInteger
  | InvalidStorageDriver (given : JsValue).

(** [enum StorageDriver] has one member. *)
Definition ASYNC_LOCAL_STORAGE : JsValue := Text "ASYNC_LOCAL_STORAGE".

Definition StorageDriver_values : list JsValue := [ASYNC_LOCAL_STORAGE].

Definition defaultOptions : DrizzleTransactionalOptions :=
  mkTransactionalOptions (Some (Integer 10)) (Some ASYNC_LOCAL_STORAGE).

(** The module's [data] when it is loaded. *)
Definition data : DrizzleTransactionalData := mkData defaultOptions false.

(** [options?.property]: [undefined] when there are no options, and when
    the options lack the property. *)
Definition read (property : DrizzleTransactionalOptions -> option JsValue)
  (given : option DrizzleTransactionalOptions) : JsValue :=
  match given with
  | Some o => default Undefined (property o)
  | None => Undefined
  end.

Definition Number_isInteger (v : JsValue) : bool :=
  match v with Integer _ => true | _ => false end.

(** [v <= 0]; evaluated for integers only, after [||]. *)
Definition notAboveZero (v : JsValue) : bool :=
  match v with Integer z => (z <=? 0)%Z | _ => false end.

(** [{ ...base, ...over }]: every property [over] has replaces the one of
    [base], whatever its value. *)
Definition spread (base : DrizzleTransactionalOptions)
  (over : option DrizzleTransactionalOptions) : DrizzleTransactionalOptions :=
  match over with
  | Some o =>
      mkTransactionalOptions
        (match maxHookHandlers o with Some v => Some v | None => maxHookHandlers base end)
        (match storageDriver o with Some v => Some v | None => storageDriver base end)
  | None => base
  end.

(** The function ends with an error, or returns; either way it leaves a
    [data]. *)
Definition initializeDrizzleTransactionalContext
  (given : option DrizzleTransactionalOptions) (d : DrizzleTransactionalData)
  : option InitError * DrizzleTransactionalData :=
  if negb (bool_decide (read maxHookHandlers given = Undefined))
     && (negb (Number_isInteger (read maxHookHandlers given))
         || notAboveZero (read maxHookHandlers given))
  then (Some MaxHookHandlersNotPositiveInteger, d)
  else if negb (bool_decide (read storageDriver given = Undefined))
          && negb (bool_decide (read storageDriver given ∈ StorageDriver_values))
  then (Some (InvalidStorageDriver (read storageDriver given)), d)
  else (None, mkData (spread defaultOptions given) true).

Definition getDrizzleTransactionalOptions (d : DrizzleTransactionalData)
  : DrizzleTransactionalOptions := options d.

Definition isDrizzleTransactionalInitialized (d : DrizzleTransactionalData) : bool :=
  initialized d.

(** A program that calls the initialisation once with each of [calls],
    catching what it throws. *)
Fixpoint initializeEach (calls : list (option DrizzleTransactionalOptions))
  (d : DrizzleTransactionalData) : DrizzleTransactionalData :=
  match calls with
  | [] => d
  | given :: rest =>
      initializeEach rest (initializeDrizzleTransactionalContext given d).2
  end.

End Storage.

(** ** utils/index.ts: [memoize]

    [fn] may read and change a state of its own and may throw; [getKey],
    where given, and [JSON.stringify] are functions of the arguments.  The
    closure that [memoize(fn, getKey)] returns owns a [Map] from keys to
    results.  A result is whatever [fn] returns; where that is a promise,
    what it settles to is not looked at. *)
Section Memoize.
Context {Args Return State Key Thrown : Type} `{Countable Key}.
Variable fn : Args -> State -> (Thrown + Return) * State.
Variable getKey : option (Args -> Key).
Variable JSON_stringify : Args -> Key.

Definition keyOf (args : Args) : Key :=
  match getKey with
  | Some f => f args
  | None => JSON_stringify args
  end.

(** One call of the memoized function, on cache and state. *)
Definition memoize (args : Args) (now : gmap Key Return * State)
  : (Thrown + Return) * (gmap Key Return * State) :=
  let key := keyOf args in
  match now.1 !! key with
  | Some cached => (inr cached, now)
  | None =>
      match fn args now.2 with
      | (inr result, s) => (inr result, (<[key := result]> now.1, s))
      | (inl error, s) => (inl error, (now.1, s))
      end
  end.

(** Calls one after the other, whatever each call ends with. *)
Fixpoint memoizeEach (calls : list Args) (now : gmap Key Return * State)
  : gmap Key Return * State :=
  match calls with
  | [] => now
  | args :: rest => memoizeEach rest (memoize args now).2
  end.

End Memoize.

(** * Notions used in the statements *)

(** Object identities in use lie below the supply. *)
Record Sound (w : World) : Prop := mkSound {
  sound_current : forall c, currentStore w = Some c -> c < nextObject w;
  sound_transactions :
    forall id, is_Some (transactionDatabases w !! id) -> id < nextObject w;
}.

(** [Stable w w']: from [w] to [w'] the ambient store is the same object,
    the two registries and the initialisation flag are unchanged, and no
    store other than the ambient one was written to. *)
Record Stable (w w' : World) : Prop := mkStable {
  stable_next : nextObject w <= nextObject w';
  stable_current : currentStore w' = currentStore w;
  stable_transactions : transactionDatabases w' = transactionDatabases w;
  stable_registered : registeredDatabases w' = registeredDatabases w;
  stable_initialized : initialized w' = initialized w;
  stable_fault : driverFault w' = driverFault w;
  stable_maps :
    forall r, r < nextObject w -> Some r <> currentStore w ->
              maps w' !! r = maps w !! r;
}.

(** A computation is steady when it keeps sound worlds sound and stable. *)
Definition steady {A} (m : M A) : Prop :=
  forall w, Sound w -> Stable w (m w).2 /\ Sound (m w).2.

(** [f] touches none of the fields that [Stable] and [Sound] speak of. *)
Definition silent (f : World -> World) : Prop :=
  forall w,
    nextObject (f w) = nextObject w /\ currentStore (f w) = currentStore w /\
    transactionDatabases (f w) = transactionDatabases w /\
    registeredDatabases (f w) = registeredDatabases w /\
    initialized (f w) = initialized w /\ driverFault (f w) = driverFault w /\
    maps (f w) = maps w.

(** The same of one run, from [w]. *)
Definition steadyAt {A} (m : M A) (w : World) : Prop :=
  Stable w (m w).2 /\ Sound (m w).2.

(** A world inside a context whose store holds one user binding. *)
Definition scopedWorld : World :=
  setCurrentStore (Some 1)
    (setMaps {[1 := {["user" := VData 5]}]} (setNextObject 2 startWorld)).

(** The binding the ambient store holds under [key], if any. *)
Definition ambient (key : string) (w : World) : option Value :=
  match currentStore w with
  | Some c => default ∅ (maps w !! c) !! key
  | None => None
  end.

(** [currentTransaction ?? false] as the handlers test it. *)
Definition inTransaction (w : World) : bool :=
  truthy (ambient CURRENT_TRANSACTION_KEY w).

(** Nothing happened between [w] and [w'] as far as registries, driver,
    hooks and ambient scope are concerned; in particular the journal, which
    records every call to the driver, is the same. *)
Record Untouched (w w' : World) : Prop := mkUntouched {
  same_initialized : initialized w' = initialized w;
  same_registered : registeredDatabases w' = registeredDatabases w;
  same_transactions : transactionDatabases w' = transactionDatabases w;
  same_current : currentStore w' = currentStore w;
  same_emitters : emitters w' = emitters w;
  same_committed : committed w' = committed w;
  same_pending : pending w' = pending w;
  same_journal : journal w' = journal w;
}.

(** An outer REQUIRED operation writes row 10, then calls an inner
    operation under [inner] that writes row 20 and throws; the outer
    operation catches the error and returns. *)
Definition outerWithFailingInner (inner : Propagation) : Op :=
  Invoke (policy REQUIRED)
    (Insert "default" 10
       (Try (Invoke (policy inner)
               (Insert "default" 20 (Raise (UserError 1))) Return)
          Return))
    Return.

(** [options] with the policy replaced by [p]. *)
Definition withPropagation (p : Propagation) (options : WrapInTransactionOptions)
  : WrapInTransactionOptions :=
  mkOptions (databaseName options) (Some (Declared p)) (isolationLevel options).




(** The policies whose handler, inside a transaction, is [runOriginal()]. *)
Definition joins (p : option PropagationValue) : bool :=
  match p with
  | None => true
  | Some (Declared REQUIRED) => true
  | Some (Declared SUPPORTS) => true
  | Some (Declared MANDATORY) => true
  | _ => false
  end.






(** The content of the ambient store; empty outside every context. *)
Definition storeContent (w : World) : gmap string Value :=
  match currentStore w with
  | Some c => default ∅ (maps w !! c)
  | None => ∅
  end.

(** The world in which [runWithContext context fn] starts [fn]. *)
Definition entered (context : list (string * Value)) (w : World) : World :=
  setCurrentStore (Some (nextObject w))
    (setMaps (<[nextObject w :=
                 foldl (fun m kv => <[kv.1 := kv.2]> m) (storeContent w) context]>
                (maps w))
       (setNextObject (S (nextObject w)) w)).

(** The isolation level that reaches the driver: [if (isolationLevel)]
    treats the empty string like [undefined]. *)
Definition effectiveLevel (level : option string) : option string :=
  match level with
  | Some l => if bool_decide (l = "") then None else Some l
  | None => None
  end.

(** The world in which the transaction runner enters its context scope:
    id and driver handle are allocated, the transaction is begun and
    registered. *)
Definition started (h : Handle) (level : option string) (w : World) : World :=
  let id := nextObject w in
  let tx := S id in
  setTransactionDatabases (<[id := tx]> (transactionDatabases w))
    (setPending (<[tx := (h, [])]> (pending w))
       (record (DbBegin h tx (effectiveLevel level))
          (setNextObject (S tx) w))).


(** The world in which the body of a new transaction starts. *)
Definition bodyWorld (h : Handle) (level : option string) (c : nat) (w : World)
  : World :=
  entered [(CURRENT_TRANSACTION_KEY, VBool true)]
    (entered [(CURRENT_DB_ID_KEY, VId (S (nextObject w)))]
       (started h level
          (setMaps (<[c := <[HOOK_CONTEXT_KEY := VHook (nextObject w)]> (storeContent w)]>
                      (maps w))
             (setEmitters (<[nextObject w := newEmitter]> (emitters w))
                (setNextObject (S (nextObject w)) w))))).




(** The value the last binding of [key] in [context] gives it, if any. *)
Fixpoint bound (key : string) (context : list (string * Value)) : option Value :=
  match context with
  | [] => None
  | kv :: rest =>
      match bound key rest with
      | Some v => Some v
      | None => if bool_decide (kv.1 = key) then Some kv.2 else None
      end
  end.

(** Two databases registered, and a world inside a transaction on the
    first of them: the world in which the body of a top-level REQUIRED
    operation starts. *)
Definition twoDatabases : World :=
  setNextObject 6
    (setRegisteredDatabases {["default" := 0; "analytics" := 5]}
       (setInitialized true emptyWorld)).

Definition insideTransaction : World :=
  bodyWorld 0 None 6 (entered [] twoDatabases).



















(** The initialisation returns for these options (whether it does is a
    matter of the options alone). *)
Definition accepted (given : option Storage.DrizzleTransactionalOptions) : bool :=
  match (Storage.initializeDrizzleTransactionalContext given Storage.data).1 with
  | None => true
  | Some _ => false
  end.

(** The last of [calls] for which the initialisation returns. *)
Definition lastAccepted (calls : list (option Storage.DrizzleTransactionalOptions))
  : option (option Storage.DrizzleTransactionalOptions) :=
  last (List.filter accepted calls).

(** A value that passes as [maxHookHandlers]. *)
Definition positiveInteger (v : Storage.JsValue) : bool :=
  match v with
  | Storage.Integer z => (0 <? z)%Z
  | _ => false
  end.

(** * Properties *)

(** ** What every engine call leaves as it found it *)

Lemma Stable_refl w : Stable w w.
Proof. constructor; auto. Qed.

Lemma Stable_trans w1 w2 w3 : Stable w1 w2 -> Stable w2 w3 -> Stable w1 w3.
Proof.
  intros [n1 c1 t1 r1 i1 f1 m1] [n2 c2 t2 r2 i2 f2 m2].
  constructor; try congruence; [lia|].
  intros r Hr Hc. rewrite m2, m1; auto; [lia | congruence].
Qed.

Lemma steady_ret {A} (a : A) : steady (ret a).
Proof. intros w Hw; split; [apply Stable_refl | done]. Qed.

Lemma steady_throw {A} e : steady (@throw A e).
Proof. intros w Hw; split; [apply Stable_refl | done]. Qed.

Lemma steady_get {A} (f : World -> A) : steady (get f).
Proof. intros w Hw; split; [apply Stable_refl | done]. Qed.

Lemma steady_bind {A B} (m : M A) (k : A -> M B) :
  steady m -> (forall a, steady (k a)) -> steady (bind m k).
Proof.
  intros Hm Hk w Hw. unfold bind.
  destruct (Hm w Hw) as [S1 W1]. destruct (m w) as [[a|e] w1]; simpl in *; [|done].
  destruct (Hk a w1 W1) as [S2 W2]. split; [eapply Stable_trans|]; eauto.
Qed.

Lemma steady_tryCatch {A} (m : M A) (h : Error -> M A) :
  steady m -> (forall e, steady (h e)) -> steady (tryCatch m h).
Proof.
  intros Hm Hh w Hw. unfold tryCatch.
  destruct (Hm w Hw) as [S1 W1]. destruct (m w) as [[a|e] w1]; simpl in *; [done|].
  destruct (Hh e w1 W1) as [S2 W2]. split; [eapply Stable_trans|]; eauto.
Qed.

Lemma steady_tryFinally {A} (m : M A) (c : M unit) :
  steady m -> steady c -> steady (tryFinally m c).
Proof.
  intros Hm Hc w Hw. unfold tryFinally.
  destruct (Hm w Hw) as [S1 W1]. destruct (m w) as [r w1]; simpl in *.
  destruct (Hc w1 W1) as [S2 W2]. destruct (c w1) as [[u|e] w2]; simpl in *;
    (split; [eapply Stable_trans|]; eauto).
Qed.

Lemma steady_modify (f : World -> World) : silent f -> steady (modify f).
Proof.
  intros Hf w [Hc Ht]. destruct (Hf w) as (n & c & t & r & i & d & m).
  unfold modify; simpl. split.
  - constructor; try done; [lia|]. intros; by rewrite m.
  - constructor; intros x Hx.
    + rewrite n. apply Hc. by rewrite <- c.
    + rewrite n. apply Ht. by rewrite <- t.
Qed.

Lemma steady_freshObject : steady freshObject.
Proof.
  intros w [Hc Ht]. unfold freshObject; simpl. split.
  - constructor; simpl; auto.
  - constructor; simpl; intros x Hx; [apply Hc in Hx | apply Ht in Hx]; lia.
Qed.

Ltac silence :=
  let w := fresh "w" in
  intros w; simpl; repeat case_match; simpl; repeat split; reflexivity.

Create HintDb steady.

#[local] Hint Resolve steady_ret steady_throw steady_get steady_freshObject
  : steady.

Ltac steadily :=
  repeat first
    [ solve [eauto with steady]
    | apply steady_bind; [| intros ?]
    | apply steady_tryCatch; [| intros ?]
    | apply steady_tryFinally
    | apply steady_modify; silence
    | match goal with |- steady (match ?x with _ => _ end) => destruct x end ].

(** *** Context carrier *)

Lemma steady_newMap content : steady (newMap content).
Proof.
  intros w [Hc Ht]. unfold newMap, bind, freshObject, modify, ret; simpl. split.
  - constructor; simpl; auto. intros r Hr _. apply lookup_insert_ne. lia.
  - constructor; simpl; intros x Hx; [apply Hc in Hx | apply Ht in Hx]; lia.
Qed.

Lemma steady_getStore : steady getStore.
Proof. apply steady_get. Qed.

Lemma steady_mapContent s : steady (mapContent s).
Proof. apply steady_get. Qed.

Lemma steady_getContextValue key : steady (getContextValue key).
Proof. unfold getContextValue. pose proof steady_getStore. pose proof steady_mapContent. steadily. Qed.

Lemma steady_hasActiveContext : steady hasActiveContext.
Proof. unfold hasActiveContext. pose proof steady_getStore. steadily. Qed.

Lemma steady_setContextValue key value : steady (setContextValue key value).
Proof.
  intros w Hw. unfold setContextValue, bind, getStore, get; simpl.
  destruct (currentStore w) as [c|] eqn:E; simpl.
  - split.
    + constructor; simpl; auto. intros r _ Hr. apply lookup_insert_ne. congruence.
    + destruct Hw as [Hc Ht]. constructor; simpl; auto.
  - split; [apply Stable_refl | done].
Qed.

(** Running [fn] under a store made for it: the caller's own store is
    untouched as well, since every write of [fn] goes to the new store. *)
Lemma newMap_run_scope {A} content (fn : M A) w :
  steady fn -> Sound w ->
  let w' := (bind (newMap content) (fun s => asyncLocalStorage_run s fn) w).2 in
  Stable w w' /\ Sound w' /\
  forall r, r < nextObject w -> maps w' !! r = maps w !! r.
Proof.
  intros Hfn Hw.
  unfold bind, newMap, bind, freshObject, modify, ret, asyncLocalStorage_run; simpl.
  set (w1 := setCurrentStore _ _).
  assert (Sound w1) as Hw1.
  { destruct Hw as [Hc Ht]. constructor; simpl.
    - intros c [= <-]. lia.
    - intros x Hx. apply Ht in Hx. lia. }
  destruct (Hfn _ Hw1) as [[n c t r i d m] [Hc' Ht']].
  destruct (fn w1) as [res w2]; simpl in *.
  assert (forall x, x < nextObject w -> maps w2 !! x = maps w !! x) as Hm.
  { intros x Hx. rewrite m; [| lia | intros [= ->]; lia].
    apply lookup_insert_ne. lia. }
  split; [|split; [|done]].
  - constructor; simpl; auto. lia.
  - constructor; simpl; auto. intros x Hx. destruct Hw as [Hc _].
    apply Hc in Hx. lia.
Qed.

Lemma runWithContext_newMap {A} context (fn : M A) w :
  exists content,
    runWithContext context fn w
    = bind (newMap content) (fun s => asyncLocalStorage_run s fn) w.
Proof.
  unfold runWithContext.
  destruct (bool_decide (currentStore w = None) && bool_decide (context = []))
    eqn:E; eexists; unfold bind at 1, getStore, get; simpl; rewrite E;
    [| unfold bind at 1, mapContent, get; simpl]; reflexivity.
Qed.

Lemma runWithContext_scope {A} context (fn : M A) w :
  steady fn -> Sound w ->
  let w' := (runWithContext context fn w).2 in
  Stable w w' /\ Sound w' /\
  forall r, r < nextObject w -> maps w' !! r = maps w !! r.
Proof.
  intros Hfn Hw. destruct (runWithContext_newMap context fn w) as [content ->].
  by apply newMap_run_scope.
Qed.

Lemma steady_runWithContext {A} context (fn : M A) :
  steady fn -> steady (runWithContext context fn).
Proof. intros Hfn w Hw. destruct (runWithContext_scope context fn w Hfn Hw) as (?&?&?). done. Qed.

#[local] Hint Resolve steady_newMap steady_getStore steady_mapContent
  steady_getContextValue steady_hasActiveContext steady_setContextValue
  steady_runWithContext : steady.

(** *** Hooks *)

Lemma steady_once emitter kind l : steady (once emitter kind l).
Proof. unfold once. steadily. Qed.

Lemma steady_call kind arg l : steady (call kind arg l).
Proof. unfold call. steadily. Qed.

Lemma steady_emitEach emitter kind arg ls : steady (emitEach emitter kind arg ls).
Proof.
  induction ls as [|l rest IH]; simpl; [apply steady_ret|].
  pose proof (steady_call kind arg l). steadily.
Qed.

Lemma steady_emit emitter kind arg : steady (emit emitter kind arg).
Proof. unfold emit. pose proof steady_emitEach. steadily. Qed.

Lemma steady_removeAllListeners emitter : steady (removeAllListeners emitter).
Proof. unfold removeAllListeners. steadily. Qed.

#[local] Hint Resolve steady_once steady_emit steady_removeAllListeners : steady.

Lemma steady_getTransactionalContextHook : steady getTransactionalContextHook.
Proof. unfold getTransactionalContextHook. steadily. Qed.

Lemma steady_createEventEmitterInContext : steady createEventEmitterInContext.
Proof. unfold createEventEmitterInContext. steadily. Qed.

#[local] Hint Resolve steady_getTransactionalContextHook
  steady_createEventEmitterInContext : steady.

Lemma steady_runAndTriggerHooks {A} hook (callback : M A) :
  steady callback -> steady (runAndTriggerHooks hook callback).
Proof. intros H. unfold runAndTriggerHooks. steadily. Qed.

Lemma steady_runOn kind l : steady (runOn kind l).
Proof.
  destruct kind; simpl;
    unfold runOnTransactionCommit, runOnTransactionRollback,
      runOnTransactionComplete; steadily.
Qed.

(** *** Driver and database manager *)

Lemma steady_driverBegin h level : steady (driverBegin h level).
Proof. unfold driverBegin. steadily. Qed.

Lemma steady_driverRollback tx : steady (driverRollback tx).
Proof. unfold driverRollback. steadily. Qed.

Lemma steady_driverCommit tx : steady (driverCommit tx).
Proof. unfold driverCommit. steadily. Qed.

#[local] Hint Resolve steady_driverBegin steady_driverRollback
  steady_driverCommit : steady.

Lemma steady_transaction {A} h (runner : nat -> M A) level :
  (forall tx, steady (runner tx)) -> steady (transaction h runner level).
Proof. intros H. unfold transaction. steadily. Qed.

Lemma steady_statement on row : steady (statement on row).
Proof. unfold statement. steadily. Qed.

Lemma steady_getDrizzleDatabaseByName name : steady (getDrizzleDatabaseByName name).
Proof. unfold getDrizzleDatabaseByName. steadily. Qed.

#[local] Hint Resolve steady_statement steady_getDrizzleDatabaseByName : steady.

Lemma steady_getCurrentDatabaseInfo name : steady (getCurrentDatabaseInfo name).
Proof. unfold getCurrentDatabaseInfo. steadily. Qed.

#[local] Hint Resolve steady_getCurrentDatabaseInfo : steady.

Lemma steady_proxyStatement name row : steady (proxyStatement name row).
Proof. unfold proxyStatement. steadily. Qed.

(** *** The transaction manager *)

Lemma bind_at {A B} (m : M A) (k : A -> M B) w :
  steadyAt m w ->
  (forall a w1, m w = (Ok a, w1) -> Stable w w1 -> Sound w1 -> steadyAt (k a) w1) ->
  steadyAt (bind m k) w.
Proof.
  unfold steadyAt, bind. intros [S1 W1] Hk.
  destruct (m w) as [[a|e] w1]; simpl in *; [|done].
  destruct (Hk a w1 eq_refl S1 W1) as [S2 W2]. split; [eapply Stable_trans|]; eauto.
Qed.

Lemma tryCatch_at {A} (m : M A) (h : Error -> M A) w :
  steadyAt m w -> (forall e, steady (h e)) -> steadyAt (tryCatch m h) w.
Proof.
  unfold steadyAt, tryCatch. intros [S1 W1] Hh.
  destruct (m w) as [[a|e] w1]; simpl in *; [done|].
  destruct (Hh e w1 W1) as [S2 W2]. split; [eapply Stable_trans|]; eauto.
Qed.

(** The runner that [runInDatabaseTransaction] hands to the driver: the
    registration it makes under its transaction id is gone when it settles. *)
Lemma transactionRunner_at {A} (callback : M A) id tx w :
  steady callback -> Sound w -> id < nextObject w ->
  transactionDatabases w !! id = None ->
  steadyAt
    (modify (fun w =>
       setTransactionDatabases (<[id := tx]> (transactionDatabases w)) w) ;;;
     tryFinally
       (runWithContext [(CURRENT_DB_ID_KEY, VId id)] callback)
       (modify (fun w =>
          setTransactionDatabases (delete id (transactionDatabases w)) w))) w.
Proof.
  intros Hcb Hw Hid Hnone. unfold steadyAt, bind, modify at 1, tryFinally; simpl.
  set (w1 := setTransactionDatabases _ w).
  assert (Sound w1) as Hw1.
  { destruct Hw as [Hc Ht]. constructor; simpl; auto.
    intros x [y Hx]. destruct (decide (x = id)) as [->|Hne]; [done|].
    rewrite lookup_insert_ne in Hx by done. eauto. }
  destruct (steady_runWithContext [(CURRENT_DB_ID_KEY, VId id)] callback Hcb w1 Hw1)
    as [[n c t r i d m] [Hc' Ht']].
  destruct (runWithContext _ callback w1) as [res w2]; simpl in *.
  assert (delete id (transactionDatabases w2) = transactionDatabases w) as Hdel.
  { rewrite t. by apply delete_insert_id. }
  split.
  - constructor; simpl; auto.
  - constructor; simpl; auto. rewrite Hdel. intros x Hx.
    destruct Hw as [_ Ht]. apply Ht in Hx. lia.
Qed.

Lemma steady_runInDatabaseTransaction {A} name level (callback : M A) :
  steady callback -> steady (runInDatabaseTransaction name level callback).
Proof.
  intros Hcb w Hw. change (steadyAt (runInDatabaseTransaction name level callback) w).
  unfold runInDatabaseTransaction.
  apply bind_at; [by apply steady_getDrizzleDatabaseByName|].
  intros h w1 _ _ Hw1.
  apply bind_at; [by apply steady_freshObject|].
  intros id w2 E S2 Hw2. unfold freshObject in E. injection E as <- <-.
  assert (forall lvl, steadyAt (transaction h
    (fun tx => modify (fun w =>
       setTransactionDatabases (<[nextObject w1 := tx]> (transactionDatabases w)) w) ;;;
     tryFinally
       (runWithContext [(CURRENT_DB_ID_KEY, VId (nextObject w1))] callback)
       (modify (fun w =>
          setTransactionDatabases (delete (nextObject w1) (transactionDatabases w)) w)))
    lvl) (setNextObject (S (nextObject w1)) w1)) as Hrun.
  { intros lvl. unfold transaction.
    apply bind_at; [by apply steady_driverBegin|].
    intros tx w3 _ S3 Hw3. apply tryCatch_at; [| intros e; steadily].
    apply bind_at; [| intros a w4 _ _ Hw4; apply steady_bind; auto with steady].
    apply transactionRunner_at; auto.
    - destruct S3 as [n _ _ _ _ _ _]. simpl in n. lia.
    - destruct S3 as [_ _ t _ _ _ _]. simpl in t. rewrite t.
      destruct (transactionDatabases w1 !! nextObject w1) eqn:E; [|done].
      destruct Hw1 as [_ Ht]. specialize (Ht (nextObject w1)).
      rewrite E in Ht. specialize (Ht (mk_is_Some _ _ eq_refl)). lia. }
  destruct level as [l|]; [destruct (bool_decide (l = ""))|]; apply Hrun.
Qed.

(** *** The wrapper *)

Lemma steady_wrapInTransaction {A} (fn : M A) options :
  steady fn -> steady (wrapInTransaction fn options).
Proof.
  intros Hfn.
  assert (steady (runWithNewHook fn)) as Hhook.
  { unfold runWithNewHook, runOriginal. pose proof (@steady_runAndTriggerHooks A).
    steadily. }
  assert (steady (runWithNewTransaction fn options)) as Htx.
  { unfold runWithNewTransaction, runOriginal.
    apply steady_bind; [auto with steady|]. intros hook.
    apply steady_runAndTriggerHooks, steady_runInDatabaseTransaction.
    auto with steady. }
  assert (steady (executeWithPropagation fn options)) as Hexec.
  { unfold executeWithPropagation, runOriginal.
    apply steady_bind; [auto with steady|]. intros cur.
    destruct (default (Declared REQUIRED) (propagation options)) as [[]|text]; simpl;
      try apply steady_throw;
      unfold handleREQUIRED, handleREQUIRES_NEW, handleMANDATORY, handleNEVER,
        handleNOT_SUPPORTED, handleSUPPORTS, handleNESTED;
      destruct (truthy cur); simpl; steadily. }
  unfold wrapInTransaction, isDrizzleTransactionalInitialized. steadily.
Qed.

(** Whatever user code does inside an operation, the engine keeps sound
    worlds sound and stable. *)
Lemma steady_run op : steady (run op).
Proof.
  induction op; simpl.
  - apply steady_ret.
  - apply steady_throw.
  - apply steady_bind; [apply steady_proxyStatement | auto].
  - apply steady_bind; [apply steady_runOn | auto].
  - apply steady_bind; [by apply steady_wrapInTransaction | auto].
  - apply steady_bind; [| auto]. apply steady_tryCatch; auto using @steady_ret.
  - apply steady_bind; [apply steady_setContextValue | auto].
  - apply steady_bind; [by apply steady_runWithContext | auto].
Qed.

Lemma Sound_startWorld : Sound startWorld.
Proof. constructor; simpl; [done|]. intros id [x Hx]. by rewrite lookup_empty in Hx. Qed.

(** ** Database registration *)

(** C10. Registration can be undone: [removeDrizzleDatabaseByName name]
    answers [true] exactly when [name] was registered, and after it
    [addTransactionalDrizzleDatabase database name] succeeds, without the
    DATABASE_ALREADY_REGISTERED error, binding [name] to [database] and
    leaving every other name as it was. *)
Theorem remove_then_register database name w :
  let removed := removeDrizzleDatabaseByName name w in
  let added := addTransactionalDrizzleDatabase database name removed.2 in
  removed.1 = Ok (bool_decide (is_Some (registeredDatabases w !! name))) /\
  added.1 = Ok tt /\
  registeredDatabases added.2 = <[name := database]> (registeredDatabases w) /\
  (getDrizzleDatabaseByName name added.2).1 = Ok database.
Proof.
  unfold removeDrizzleDatabaseByName, addTransactionalDrizzleDatabase,
    getDrizzleDatabaseByName, bind, get, modify, ret; simpl.
  rewrite lookup_delete_eq.
  rewrite (bool_decide_eq_false_2 (is_Some (@None Handle))) by apply is_Some_None.
  simpl. rewrite lookup_insert_eq.
  repeat split; try reflexivity. apply insert_delete_eq.
Qed.

(** Registering a name twice without removing it is refused. *)
Lemma register_twice_refused d1 d2 name w :
  registeredDatabases w !! name = None ->
  (bind (addTransactionalDrizzleDatabase d1 name)
     (fun _ => addTransactionalDrizzleDatabase d2 name) w).1
  = Thrown (DATABASE_ALREADY_REGISTERED name).
Proof.
  intros H. unfold addTransactionalDrizzleDatabase, bind, get, modify, throw; simpl.
  rewrite H.
  rewrite (bool_decide_eq_false_2 (is_Some (@None Handle))) by apply is_Some_None.
  simpl. rewrite lookup_insert_eq. by rewrite bool_decide_eq_true_2.
Qed.

(** ** Context scopes *)

Lemma Sound_scopedWorld : Sound scopedWorld.
Proof.
  constructor; simpl.
  - intros c [= <-]. lia.
  - intros id [x Hx]. by rewrite lookup_empty in Hx.
Qed.

(** C9. When [runWithContext context body] has settled, by returning or by
    throwing, the ambient store is the object it was before, that object
    holds the bindings it held before, and so every key reads as before:
    neither the entry bindings of the nested scope nor any
    [setContextValue] made inside it is visible to the caller. *)
Theorem nested_scope_leaves_no_binding context body w :
  Sound w ->
  let w' := (runWithContext context (run body) w).2 in
  currentStore w' = currentStore w /\
  (forall c, currentStore w = Some c -> maps w' !! c = maps w !! c) /\
  (forall key, (getContextValue key w').1 = (getContextValue key w).1).
Proof.
  intros Hw.
  destruct (runWithContext_scope context (run body) w (steady_run body) Hw)
    as ([_ Hc _ _ _ _ _] & _ & Hm).
  set (w' := (runWithContext context (run body) w).2) in *. simpl.
  assert (forall c, currentStore w = Some c -> maps w' !! c = maps w !! c) as Hp.
  { intros c E. apply Hm. destruct Hw as [Hb _]. by apply Hb. }
  split; [done | split; [done|]].
  intros key. unfold getContextValue, bind, getStore, mapContent, get, ret; simpl.
  rewrite Hc. destruct (currentStore w) as [c|]; [|done].
  by rewrite (Hp c eq_refl).
Qed.

Lemma nested_scope_leaves_no_binding_witness :
  let body := SetValue "user" (VData 9) (SetValue "inner" (VBool true) (Raise (UserError 1))) in
  let w' := (runWithContext [("entry", VData 3)] (run body) scopedWorld).2 in
  currentStore w' = currentStore scopedWorld /\
  (forall c, currentStore scopedWorld = Some c ->
             maps w' !! c = maps scopedWorld !! c) /\
  (forall key, (getContextValue key w').1 = (getContextValue key scopedWorld).1).
Proof.
  exact (nested_scope_leaves_no_binding [("entry", VData 3)]
           (SetValue "user" (VData 9)
              (SetValue "inner" (VBool true) (Raise (UserError 1))))
           scopedWorld Sound_scopedWorld).
Defined.

(** Inside the scope the bindings are there: the entry binding and the
    parent's binding are read, and a write shadows the parent's value. *)
Example nested_scope_sees_bindings :
  (runWithContext [("entry", VData 3)]
     (a <- getContextValue "entry" ;;
      b <- getContextValue "user" ;;
      setContextValue "user" (VData 9) ;;;
      c <- getContextValue "user" ;;
      ret (a, b, c)) scopedWorld).1
  = Ok (Some (VData 3), Some (VData 5), Some (VData 9)).
Proof. vm_compute. reflexivity. Qed.

(** ** Registry of open transactions *)

(** C8. [runInDatabaseTransaction] leaves the registry of open
    transactions as it found it, whether the callback returns or throws and
    whether the driver commits or fails: the entry it adds under the id it
    generates is removed again before the call settles, and no other entry
    is touched. *)
Theorem transaction_registration_released name level body w :
  Sound w ->
  let w' := (runInDatabaseTransaction name level (run body) w).2 in
  transactionDatabases w' = transactionDatabases w /\
  transactionDatabases w' !! nextObject w = None.
Proof.
  intros Hw.
  destruct (steady_runInDatabaseTransaction name level (run body) (steady_run body) w Hw)
    as [[_ _ Ht _ _ _ _] _].
  simpl. split; [done|]. rewrite Ht.
  destruct (transactionDatabases w !! nextObject w) eqn:F; [|done].
  destruct Hw as [_ Hb]. specialize (Hb (nextObject w)). rewrite F in Hb.
  specialize (Hb (mk_is_Some _ _ eq_refl)). lia.
Qed.

Lemma transaction_registration_released_witness :
  let body := Insert "default" 7 (Raise (UserError 1)) in
  let w' := (runInDatabaseTransaction "default" None (run body) startWorld).2 in
  transactionDatabases w' = transactionDatabases startWorld /\
  transactionDatabases w' !! nextObject startWorld = None.
Proof.
  exact (transaction_registration_released "default" None
           (Insert "default" 7 (Raise (UserError 1))) startWorld Sound_startWorld).
Defined.

(** While the callback runs the entry is there: a callback that reads the
    registry finds the generated id (1) bound to the driver's transaction
    handle (2), whether it then returns or throws. *)
Example registration_present_during_callback :
  let returning := get (fun w => transactionDatabases w !! 1) in
  let throwing :=
    bound <- get (fun w => transactionDatabases w !! 1) ;;
    throw (UserError (default 0 bound)) in
  (runInDatabaseTransaction "default" None returning startWorld).1
    = Ok (Some 2) /\
  journal (runInDatabaseTransaction "default" None returning startWorld).2
    = [DbBegin 0 2 None; DbCommit 2] /\
  (runInDatabaseTransaction "default" None throwing startWorld).1
    = @Thrown unit (UserError 2) /\
  journal (runInDatabaseTransaction "default" None throwing startWorld).2
    = [DbBegin 0 2 None; DbRollback 2].
Proof. vm_compute. auto. Qed.

(** ** Policy violations *)

Lemma getContextValue_ambient key w :
  getContextValue key w = (Ok (ambient key w), w).
Proof.
  unfold getContextValue, ambient, bind, getStore, mapContent, get, ret; simpl.
  by destruct (currentStore w).
Qed.



(** ** REQUIRES_NEW and NESTED inside a transaction *)

(** C1. With the inner operation declared REQUIRES_NEW the driver is asked
    for one transaction only.  The handler for REQUIRES_NEW, finding a
    transaction open, runs the inner operation in a hook scope of its own
    with the in-transaction flag off and logs a warning; the inner write
    goes to the outer transaction's handle and is committed with it,
    although the inner operation failed. *)
Theorem requires_new_inside_opens_no_transaction :
  let out := run (outerWithFailingInner REQUIRES_NEW) startWorld in
  out.1 = Ok tt /\
  journal out.2 =
    [DbBegin 0 4 None; DbStatement (TxDb 4) 10; Warned;
     DbStatement (TxDb 4) 20; DbCommit 4] /\
  committed out.2 = [(0, 10); (0, 20)].
Proof. vm_compute. auto. Qed.

(** C4. In the same place NESTED does open a second transaction, which is
    rolled back when the inner operation fails, so that only the outer row
    is committed: inside a transaction the two policies differ. *)
Theorem nested_differs_from_requires_new_inside :
  let nested := run (outerWithFailingInner NESTED) startWorld in
  let requiresNew := run (outerWithFailingInner REQUIRES_NEW) startWorld in
  journal nested.2 =
    [DbBegin 0 4 None; DbStatement (TxDb 4) 10;
     DbBegin 0 9 None; DbStatement (TxDb 9) 20; DbRollback 9; DbCommit 4] /\
  committed nested.2 = [(0, 10)] /\
  journal requiresNew.2 =
    [DbBegin 0 4 None; DbStatement (TxDb 4) 10; Warned;
     DbStatement (TxDb 4) 20; DbCommit 4] /\
  committed requiresNew.2 = [(0, 10); (0, 20)].
Proof. vm_compute. auto. Qed.

(** Outside a transaction the two policies are the same computation, and
    NESTED goes through [runWithNewTransaction] in either ambient state. *)
Lemma nested_executes_runWithNewTransaction {A} (fn : M A) options w :
  executeWithPropagation fn (withPropagation NESTED options) w
  = runWithNewTransaction fn (withPropagation NESTED options) w.
Proof.
  unfold executeWithPropagation, bind. by rewrite getContextValue_ambient.
Qed.

Lemma requires_new_executes_outside {A} (fn : M A) options w :
  inTransaction w = false ->
  executeWithPropagation fn (withPropagation REQUIRES_NEW options) w
  = runWithNewTransaction fn (withPropagation NESTED options) w.
Proof.
  intros H. unfold executeWithPropagation, bind. rewrite getContextValue_ambient.
  simpl. unfold handleREQUIRES_NEW. fold (inTransaction w). by rewrite H.
Qed.

(** Inside a transaction REQUIRES_NEW is a warning followed by
    [runWithNewHook] under a store whose in-transaction flag is off;
    [runInDatabaseTransaction] has no part in it. *)
Lemma requires_new_executes_inside {A} (fn : M A) options w :
  inTransaction w = true ->
  executeWithPropagation fn (withPropagation REQUIRES_NEW options) w
  = bind (modify (record Warned))
      (fun _ => runWithContext [(CURRENT_TRANSACTION_KEY, VBool false)]
                  (runWithNewHook fn)) w.
Proof.
  intros H. unfold executeWithPropagation. unfold bind at 1.
  rewrite getContextValue_ambient.
  simpl. unfold handleREQUIRES_NEW. fold (inTransaction w). by rewrite H.
Qed.

(** ** The handle resolver *)

(** What the resolver goes by is the transaction id bound in the ambient
    store alone; the in-transaction flag is not consulted. *)
Lemma resolver_follows_transaction_id name w h id tx :
  registeredDatabases w !! name = Some h ->
  ambient CURRENT_DB_ID_KEY w = Some (VId id) ->
  transactionDatabases w !! id = Some tx ->
  getCurrentDatabaseInfo name w = (Ok (mkInfo (TxDb tx) true h), w).
Proof.
  intros Hh Hid Htx.
  unfold getCurrentDatabaseInfo, bind at 1, getDrizzleDatabaseByName, bind at 1, get, ret.
  rewrite Hh. unfold bind at 1. rewrite getContextValue_ambient, Hid. simpl.
  unfold bind, get, ret. by rewrite Htx.
Qed.


Lemma resolver_unknown_transaction_id name w h id :
  registeredDatabases w !! name = Some h ->
  ambient CURRENT_DB_ID_KEY w = Some (VId id) ->
  transactionDatabases w !! id = None ->
  getCurrentDatabaseInfo name w = (Thrown NoTransactionDatabase, w).
Proof.
  intros Hh Hid Htx.
  unfold getCurrentDatabaseInfo, bind at 1, getDrizzleDatabaseByName, bind at 1, get, ret.
  rewrite Hh. unfold bind at 1. rewrite getContextValue_ambient, Hid. simpl.
  unfold bind, get, throw. by rewrite Htx.
Qed.

(** The name is looked up first, also inside a transaction. *)
Lemma resolver_name_not_registered name w :
  registeredDatabases w !! name = None ->
  getCurrentDatabaseInfo name w = (Thrown (DATABASE_NOT_FOUND name), w).
Proof.
  intros Hh.
  unfold getCurrentDatabaseInfo, bind at 1, getDrizzleDatabaseByName, bind at 1, get.
  by rewrite Hh.
Qed.

(** C2. A NOT_SUPPORTED operation called inside a REQUIRED one runs with
    the in-transaction flag bound to [false], yet the resolver hands it the
    handle of the suspended transaction and reports [isTransacting]: the
    sub-scope is a copy of the transaction's store and still carries the
    transaction id. *)
Theorem resolver_inside_not_supported :
  let probe :=
    flag <- getContextValue CURRENT_TRANSACTION_KEY ;;
    dbInfo <- getCurrentDatabaseInfo "default" ;;
    ret (flag, dbInfo) in
  (wrapInTransaction (wrapInTransaction probe (policy NOT_SUPPORTED))
     (policy REQUIRED) startWorld).1
  = Ok (Some (VBool false), mkInfo (TxDb 4) true 0).
Proof. vm_compute. reflexivity. Qed.

(** Accordingly a row written under NOT_SUPPORTED is lost when the
    suspended transaction rolls back afterwards. *)
Example not_supported_write_rolled_back :
  let out :=
    run (Invoke (policy REQUIRED)
           (Invoke (policy NOT_SUPPORTED) (Insert "default" 20 Return)
              (Raise (UserError 1))) Return) startWorld in
  out.1 = Thrown (UserError 1) /\
  journal out.2 = [DbBegin 0 4 None; DbStatement (TxDb 4) 20; DbRollback 4] /\
  committed out.2 = [].
Proof. vm_compute. auto. Qed.

(** ** Listeners that throw *)

(** C3. A commit listener that throws: the transaction is committed, but
    the second commit listener is never called, the rollback listener is
    called although nothing rolled back, the end listener receives the
    listener's error, and the wrapped call fails with that error. *)
Theorem commit_listener_error_escapes :
  let out :=
    run (Invoke (policy REQUIRED)
           (Insert "default" 10
              (OnEvent Commit (failing 1 (UserError 7))
                 (OnEvent Commit (quiet 2)
                    (OnEvent End (quiet 3)
                       (OnEvent Rollback (quiet 4) Return))))) Return)
      startWorld in
  out.1 = Thrown (UserError 7) /\
  journal out.2 =
    [DbBegin 0 4 None; DbStatement (TxDb 4) 10; DbCommit 4;
     Fired Commit 1 None;
     Fired Rollback 4 (Some (UserError 7));
     Fired End 3 (Some (UserError 7))] /\
  committed out.2 = [(0, 10)].
Proof. vm_compute. auto. Qed.

(** In general: when the callback has returned and the first commit
    listener throws, [runAndTriggerHooks] throws, whatever the other
    listeners do. *)
Lemma throwing_commit_listener_fails_call {A} hook (callback : M A) w a w1 em l rest e :
  callback w = (Ok a, w1) -> emitters w1 !! hook = Some em ->
  onCommit em = l :: rest -> throws l = Some e ->
  exists e' w', runAndTriggerHooks hook callback w = (Thrown e', w').
Proof.
  intros Hcb Hem Hl He.
  assert (forall (m : M unit) e0 v, exists e' v',
            bind m (fun _ => @throw A e0) v = (Thrown e', v')) as Hthrow.
  { intros m e0 v. unfold bind, throw. destruct (m v) as [[u|e1] v']; eauto. }
  unfold runAndTriggerHooks, tryCatch, bind at 1. rewrite Hcb.
  unfold bind at 1, emit at 1, bind at 1, get at 1. rewrite Hem. simpl.
  rewrite Hl. simpl. unfold bind at 1, modify at 1, bind at 1, call, bind at 1.
  unfold modify at 1. rewrite He. unfold throw at 1.
  match goal with |- context [?m ;;; ?n ;;; ?o ;;; throw ?x] =>
    destruct (Hthrow (m ;;; n ;;; o) x
                (record (Fired Commit (tag l) None)
                   (setEmitters (alter (setListeners Commit rest) hook (emitters w1)) w1)))
      as (e' & v' & E)
  end.
  exists e', v'. rewrite <- E. unfold bind. simpl.
  repeat (match goal with |- context [match ?x with _ => _ end] => destruct x end;
          try reflexivity).
Qed.

(** C6. Two hook scopes without a transaction (policy SUPPORTS at top
    level).  In the first the operation returns and the first of two commit
    listeners throws: the second is not called and the end listener gets an
    error.  In the second the operation throws [UserError 0] and the first
    of two rollback listeners throws: the second rollback listener and the
    end listener are not called, the caller sees the listener's error, and
    the emitter still holds the two listeners that were not called. *)
Theorem throwing_listener_breaks_firing_order :
  let success :=
    run (Invoke (policy SUPPORTS)
           (OnEvent Commit (failing 1 (UserError 7))
              (OnEvent Commit (quiet 2) (OnEvent End (quiet 3) Return)))
           Return) startWorld in
  let failure :=
    run (Invoke (policy SUPPORTS)
           (OnEvent Rollback (failing 1 (UserError 7))
              (OnEvent Rollback (quiet 2)
                 (OnEvent End (quiet 3) (Raise (UserError 0)))))
           Return) startWorld in
  journal success.2 = [Fired Commit 1 None; Fired End 3 (Some (UserError 7))] /\
  failure.1 = Thrown (UserError 7) /\
  journal failure.2 = [Fired Rollback 1 (Some (UserError 0))] /\
  emitters failure.2 !! 2 = Some (mkEmitter [] [quiet 2] [quiet 3]).
Proof. vm_compute. auto. Qed.

(** ** Listeners that return *)





Lemma listeners_setListeners kind ls em : listeners kind (setListeners kind ls em) = ls.
Proof. by destruct kind, em. Qed.






(** ** Operations that join the ambient transaction *)

Lemma ambient_active key w v : ambient key w = Some v -> exists c, currentStore w = Some c.
Proof. unfold ambient. destruct (currentStore w); [eauto | done]. Qed.

Lemma hasActiveContext_eq w :
  hasActiveContext w = (Ok (bool_decide (currentStore w <> None)), w).
Proof. reflexivity. Qed.

(** Inside a transaction a joining policy runs the operation as it is. *)
Lemma wrapInTransaction_joins {A} (fn : M A) options w :
  initialized w = true -> inTransaction w = true ->
  joins (propagation options) = true ->
  wrapInTransaction fn options w = fn w.
Proof.
  intros Hi Hin Hj.
  assert (exists c, currentStore w = Some c) as [c Hc].
  { unfold inTransaction in Hin.
    destruct (ambient CURRENT_TRANSACTION_KEY w) eqn:E; [|done].
    by eapply ambient_active. }
  unfold wrapInTransaction, bind, isDrizzleTransactionalInitialized, get.
  rewrite Hi; simpl. rewrite Hc; simpl.
  unfold executeWithPropagation, bind. rewrite getContextValue_ambient.
  fold (inTransaction w). rewrite Hin.
  destruct (propagation options) as [[[]|]|]; try done.
Qed.







(** ** A new transaction around a joining body *)

Lemma ambient_storeContent key w : ambient key w = storeContent w !! key.
Proof. unfold ambient, storeContent. by destruct (currentStore w). Qed.

Lemma runWithContext_eq {A} context (fn : M A) w :
  runWithContext context fn w
  = ((fn (entered context w)).1,
     setCurrentStore (currentStore w) (fn (entered context w)).2).
Proof.
  unfold runWithContext, bind at 1, getStore, get.
  assert (forall content,
    bind (newMap content) (fun s => asyncLocalStorage_run s fn) w
    = (let out := fn (setCurrentStore (Some (nextObject w))
                        (setMaps (<[nextObject w := content]> (maps w))
                           (setNextObject (S (nextObject w)) w))) in
       (out.1, setCurrentStore (currentStore w) out.2))) as Hgen.
  { intros content.
    unfold bind, newMap, bind, freshObject, modify, ret, asyncLocalStorage_run.
    simpl. by destruct (fn _). }
  unfold entered, storeContent.
  destruct (currentStore w) as [c|] eqn:Hc; simpl.
  - unfold bind at 1, mapContent, get. rewrite Hgen. reflexivity.
  - destruct context; simpl.
    + rewrite Hgen. reflexivity.
    + unfold bind at 1, mapContent, get. rewrite Hgen. reflexivity.
Qed.

Lemma ambient_entered key context w :
  ambient key (entered context w)
  = foldl (fun m kv => <[kv.1 := kv.2]> m) (storeContent w) context !! key.
Proof. unfold ambient, entered; simpl. by rewrite lookup_insert_eq. Qed.














(** The run of the witness, in full. *)
Example required_in_required_journal :
  journal (run (Invoke (policy REQUIRED)
                  (OnEvent Commit (quiet 1)
                     (Invoke (policy REQUIRED)
                        (OnEvent Commit (quiet 2) (Insert "default" 7 Return))
                        (OnEvent Commit (quiet 3) Return)))
                  Return) startWorld).2
  = [DbBegin 0 4 None; DbStatement (TxDb 4) 7; DbCommit 4;
     Fired Commit 1 None; Fired Commit 2 None; Fired Commit 3 None].
Proof. vm_compute. reflexivity. Qed.


(** A remark on the hook binding.  [createEventEmitterInContext] writes the
    new hook object into the caller's store before the callee's scope is
    entered, and nothing writes the old one back.  A listener that the
    caller registers after a call that made its own hook scope (here
    NESTED inside REQUIRED) lands on the callee's hook object, which has
    fired already, and is never called. *)
Example listener_registered_after_nested_call :
  let out :=
    run (Invoke (policy REQUIRED)
           (Invoke (policy NESTED) Return (OnEvent Commit (quiet 1) Return))
           Return) startWorld in
  out.1 = Ok tt /\
  journal out.2 = [DbBegin 0 4 None; DbBegin 0 9 None; DbCommit 9; DbCommit 4] /\
  emitters out.2 !! 7 = Some (mkEmitter [quiet 1] [] []).
Proof. vm_compute. auto. Qed.

(** * Further properties *)

(** ** Context carrier *)

Lemma foldl_insert_lookup key (context : list (string * Value)) :
  forall content : gmap string Value,
    foldl (fun m kv => <[kv.1 := kv.2]> m) content context !! key
    = match bound key context with
      | Some v => Some v
      | None => content !! key
      end.
Proof.
  induction context as [|kv rest IH]; intros content; simpl; [done|].
  rewrite IH. destruct (bound key rest); [done|].
  case_bool_decide as Hk.
  - by rewrite <- Hk, lookup_insert_eq.
  - by rewrite lookup_insert_ne.
Qed.

(** X1. What code started by [runWithContext context] reads under a key is
    the last binding [context] has for the key, and the caller's binding
    when [context] has none: the nested scope is the caller's scope,
    overridden by the entry bindings.  This holds outside every context
    too, where the caller has no binding. *)
Theorem nested_scope_reads_override context key w :
  (runWithContext context (getContextValue key) w).1
  = Ok (match bound key context with
        | Some v => Some v
        | None => ambient key w
        end).
Proof.
  rewrite runWithContext_eq. cbn [fst]. rewrite getContextValue_ambient. cbn [fst].
  rewrite ambient_entered, foldl_insert_lookup. by rewrite ambient_storeContent.
Qed.

Lemma setContextValue_inside key value w c :
  currentStore w = Some c ->
  setContextValue key value w
  = (Ok tt, setMaps (<[c := <[key := value]> (storeContent w)]> (maps w)) w).
Proof.
  intros Hc. unfold setContextValue, bind, getStore, get, modify, storeContent.
  by rewrite Hc.
Qed.

Lemma setContextValue_outside key value w :
  currentStore w = None -> setContextValue key value w = (Ok tt, w).
Proof.
  intros Hc. unfold setContextValue, bind, getStore, get, ret. by rewrite Hc.
Qed.

Lemma getContext_storeContent w : getContext w = (Ok (storeContent w), w).
Proof. reflexivity. Qed.

(** X2. Inside a context [setContextValue key value] makes [key] read as
    [value], leaves every other key as it read, and [getContext()] is the
    former content with that one binding; outside every context it does
    nothing at all and the key reads as undefined. *)
Theorem set_then_get key value w :
  let w' := (setContextValue key value w).2 in
  match currentStore w with
  | Some _ =>
      (getContextValue key w').1 = Ok (Some value) /\
      (forall other, other <> key ->
         (getContextValue other w').1 = (getContextValue other w).1) /\
      (getContext w').1 = Ok (<[key := value]> (storeContent w))
  | None =>
      w' = w /\ (getContextValue key w').1 = Ok None /\ (getContext w').1 = Ok ∅
  end.
Proof.
  destruct (currentStore w) as [c|] eqn:Hc.
  - rewrite (setContextValue_inside key value w c Hc). cbn [snd].
    rewrite getContext_storeContent. cbn [fst].
    assert (storeContent
              (setMaps (<[c := <[key := value]> (storeContent w)]> (maps w)) w)
            = <[key := value]> (storeContent w)) as Hs.
    { unfold storeContent at 1. simpl. by rewrite Hc, lookup_insert_eq. }
    split; [|split].
    + by rewrite getContextValue_ambient, ambient_storeContent, Hs, lookup_insert_eq.
    + intros other Hne.
      rewrite !getContextValue_ambient, !ambient_storeContent, Hs. cbn [fst].
      by rewrite lookup_insert_ne.
    + by rewrite Hs.
  - rewrite (setContextValue_outside key value w Hc). cbn [snd].
    rewrite getContextValue_ambient, getContext_storeContent. cbn [fst].
    unfold ambient, storeContent. by rewrite Hc.
Qed.

(** ** Database registry *)

(** X3. A name can be registered once: the first registration of a free
    name succeeds, a second one under the same name is refused with
    DATABASE_ALREADY_REGISTERED and changes nothing, and the name still
    resolves to the database registered first. *)
Theorem duplicate_registration_keeps_first d1 d2 name w :
  registeredDatabases w !! name = None ->
  let first := addTransactionalDrizzleDatabase d1 name w in
  let second := addTransactionalDrizzleDatabase d2 name first.2 in
  first.1 = Ok tt /\
  second = (Thrown (DATABASE_ALREADY_REGISTERED name), first.2) /\
  (getDrizzleDatabaseByName name second.2).1 = Ok d1.
Proof.
  intros H. unfold addTransactionalDrizzleDatabase, getDrizzleDatabaseByName,
    bind, get, modify, throw, ret; simpl.
  rewrite H.
  rewrite (bool_decide_eq_false_2 (is_Some (@None Handle))) by apply is_Some_None.
  simpl. rewrite lookup_insert_eq.
  rewrite bool_decide_eq_true_2 by done. simpl. by rewrite lookup_insert_eq.
Qed.

Lemma duplicate_registration_keeps_first_witness :
  let first := addTransactionalDrizzleDatabase 3 "reports" startWorld in
  let second := addTransactionalDrizzleDatabase 4 "reports" first.2 in
  first.1 = Ok tt /\
  second = (Thrown (DATABASE_ALREADY_REGISTERED "reports"), first.2) /\
  (getDrizzleDatabaseByName "reports" second.2).1 = Ok 3.
Proof.
  apply (duplicate_registration_keeps_first 3 4 "reports" startWorld).
  reflexivity.
Defined.

Lemma setRegisteredDatabases_same w :
  setRegisteredDatabases (registeredDatabases w) w = w.
Proof. by destruct w. Qed.

(** X4. After [removeDrizzleDatabaseByName name] the name is unknown
    ([getDrizzleDatabaseByName] throws DATABASE_NOT_FOUND), every other
    name resolves as before, and removing a name that was not registered
    answers [false] and changes nothing. *)
Theorem remove_forgets_only_that_name name w :
  let out := removeDrizzleDatabaseByName name w in
  (getDrizzleDatabaseByName name out.2).1 = Thrown (DATABASE_NOT_FOUND name) /\
  (forall other, other <> name ->
     (getDrizzleDatabaseByName other out.2).1 = (getDrizzleDatabaseByName other w).1) /\
  (registeredDatabases w !! name = None -> out = (Ok false, w)).
Proof.
  unfold removeDrizzleDatabaseByName, getDrizzleDatabaseByName, bind, get, modify,
    ret, throw; simpl.
  rewrite lookup_delete_eq. split; [done|]. split.
  - intros other Hne. rewrite lookup_delete_ne by done.
    by destruct (registeredDatabases w !! other).
  - intros H. rewrite H, delete_id by done.
    rewrite (bool_decide_eq_false_2 (is_Some (@None Handle))) by apply is_Some_None.
    by rewrite setRegisteredDatabases_same.
Qed.

(** ** Resolver and proxy *)

(** X5. Inside a transaction the resolver does not go by the database name
    beyond checking that it is registered: for two registered names it
    returns the same transaction handle, that of the ambient transaction,
    whichever database that transaction was opened on; only [baseDatabase]
    differs.  A statement issued through the proxy of the second database
    is executed on the transaction of the first. *)
Theorem resolver_ignores_database_name n1 n2 h1 h2 id tx row w :
  registeredDatabases w !! n1 = Some h1 ->
  registeredDatabases w !! n2 = Some h2 ->
  ambient CURRENT_DB_ID_KEY w = Some (VId id) ->
  transactionDatabases w !! id = Some tx ->
  getCurrentDatabaseInfo n1 w = (Ok (mkInfo (TxDb tx) true h1), w) /\
  getCurrentDatabaseInfo n2 w = (Ok (mkInfo (TxDb tx) true h2), w) /\
  journal (proxyStatement n2 row w).2 = journal w ++ [DbStatement (TxDb tx) row].
Proof.
  intros H1 H2 Hid Htx.
  rewrite (resolver_follows_transaction_id n1 w h1 id tx) by done.
  rewrite (resolver_follows_transaction_id n2 w h2 id tx) by done.
  split; [done|]. split; [done|].
  unfold proxyStatement, bind at 1.
  rewrite (resolver_follows_transaction_id n2 w h2 id tx) by done.
  unfold statement, bind at 1, modify at 1, bind, get. simpl.
  destruct (pending w !! tx) as [[h rows]|]; reflexivity.
Qed.

Lemma resolver_ignores_database_name_witness :
  getCurrentDatabaseInfo "default" insideTransaction
    = (Ok (mkInfo (TxDb 9) true 0), insideTransaction) /\
  getCurrentDatabaseInfo "analytics" insideTransaction
    = (Ok (mkInfo (TxDb 9) true 5), insideTransaction) /\
  journal (proxyStatement "analytics" 7 insideTransaction).2
    = journal insideTransaction ++ [DbStatement (TxDb 9) 7].
Proof.
  apply (resolver_ignores_database_name "default" "analytics" 0 5 8 9 7
           insideTransaction); vm_compute; reflexivity.
Defined.

(** X6. A proxy made for a database name that is not registered (proxies
    are made before registration, say, or the name was removed): the [in]
    operator answers [true] for [isTransacting] and [baseDatabase]
    without resolving anything, but reading either of them throws
    DATABASE_NOT_FOUND, and so do [in] and a read for every other
    property.  Nothing is changed by any of these. *)
Theorem proxy_of_unregistered_database owns name prop w :
  registeredDatabases w !! name = None ->
  proxyGet name prop w = (Thrown (DATABASE_NOT_FOUND name), w) /\
  proxyHas owns name prop w
  = (if bool_decide (prop = "isTransacting") || bool_decide (prop = "baseDatabase")
     then Ok true
     else Thrown (DATABASE_NOT_FOUND name), w).
Proof.
  intros Hn. split.
  - unfold proxyGet, bind. by rewrite (resolver_name_not_registered name w Hn).
  - unfold proxyHas.
    destruct (bool_decide (prop = "isTransacting") || bool_decide (prop = "baseDatabase"));
      [done|].
    unfold bind. by rewrite (resolver_name_not_registered name w Hn).
Qed.

Lemma proxy_of_unregistered_database_witness :
  proxyGet "missing" "isTransacting" startWorld
    = (Thrown (DATABASE_NOT_FOUND "missing"), startWorld) /\
  proxyHas (fun _ _ => true) "missing" "isTransacting" startWorld
  = (if bool_decide ("isTransacting" = "isTransacting")
        || bool_decide ("isTransacting" = "baseDatabase")
     then Ok true
     else Thrown (DATABASE_NOT_FOUND "missing"), startWorld).
Proof.
  apply (proxy_of_unregistered_database (fun _ _ => true) "missing" "isTransacting"
           startWorld).
  reflexivity.
Defined.

(** ** Hook registration *)

Lemma runOn_without_hook kind l w :
  truthy (ambient HOOK_CONTEXT_KEY w) = false ->
  runOn kind l w
  = (Thrown (match currentStore w with
             | Some _ => CONTEXT_NO_HOOK
             | None => CONTEXT_NO_CONTEXT
             end), w).
Proof.
  intros H.
  assert (getTransactionalContextHook w
          = (Thrown (match currentStore w with
                     | Some _ => CONTEXT_NO_HOOK
                     | None => CONTEXT_NO_CONTEXT
                     end), w)) as E.
  { unfold getTransactionalContextHook, bind. rewrite hasActiveContext_eq.
    destruct (currentStore w) as [c|] eqn:Hc.
    - rewrite bool_decide_eq_true_2 by done. cbn [negb].
      by rewrite getContextValue_ambient, H.
    - by rewrite bool_decide_eq_false_2 by (intros F; by apply F). }
  destruct kind; simpl;
    unfold runOnTransactionCommit, runOnTransactionRollback,
      runOnTransactionComplete, bind; by rewrite E.
Qed.

(** X7. Registering a hook needs a hook object in the ambient scope:
    outside every context [runOnTransactionCommit],
    [runOnTransactionRollback] and [runOnTransactionComplete] throw
    CONTEXT_NO_CONTEXT, inside a context without a hook binding they throw
    CONTEXT_NO_HOOK, and in either case the listener is registered nowhere:
    the world is unchanged. *)
Theorem registration_needs_hook_scope l w :
  truthy (ambient HOOK_CONTEXT_KEY w) = false ->
  let e := match currentStore w with
           | Some _ => CONTEXT_NO_HOOK
           | None => CONTEXT_NO_CONTEXT
           end in
  runOnTransactionCommit l w = (Thrown e, w) /\
  runOnTransactionRollback l w = (Thrown e, w) /\
  runOnTransactionComplete l w = (Thrown e, w).
Proof.
  intros H. repeat split.
  - exact (runOn_without_hook Commit l w H).
  - exact (runOn_without_hook Rollback l w H).
  - exact (runOn_without_hook End l w H).
Qed.

Lemma registration_needs_hook_scope_witness :
  let e := match currentStore scopedWorld with
           | Some _ => CONTEXT_NO_HOOK
           | None => CONTEXT_NO_CONTEXT
           end in
  runOnTransactionCommit (quiet 1) scopedWorld = (Thrown e, scopedWorld) /\
  runOnTransactionRollback (quiet 1) scopedWorld = (Thrown e, scopedWorld) /\
  runOnTransactionComplete (quiet 1) scopedWorld = (Thrown e, scopedWorld).
Proof.
  apply (registration_needs_hook_scope (quiet 1) scopedWorld). reflexivity.
Defined.

(** ** The wrapper *)

Lemma wrapInTransaction_initialized {A} (fn : M A) options w :
  initialized w = true ->
  wrapInTransaction fn options w
  = match currentStore w with
    | Some _ => executeWithPropagation fn options w
    | None =>
        ((executeWithPropagation fn options (entered [] w)).1,
         setCurrentStore None (executeWithPropagation fn options (entered [] w)).2)
    end.
Proof.
  intros Hi.
  unfold wrapInTransaction, bind at 1, isDrizzleTransactionalInitialized, get.
  rewrite Hi. cbn [negb]. unfold bind at 1. rewrite hasActiveContext_eq.
  destruct (currentStore w) as [c|] eqn:Hc.
  - by rewrite bool_decide_eq_true_2.
  - rewrite bool_decide_eq_false_2 by (intros F; by apply F). cbn [negb].
    by rewrite runWithContext_eq, Hc.
Qed.

Lemma executeWithPropagation_handler {A} (fn : M A) options w :
  executeWithPropagation fn options w
  = match propagationHandlers (default (Declared REQUIRED) (propagation options)) with
    | None =>
        (Thrown (PROPAGATION_UNKNOWN
                   (propagationText (default (Declared REQUIRED) (propagation options)))),
         w)
    | Some handler =>
        handler (inTransaction w) fn (runWithNewTransaction fn options)
          (runWithNewHook fn) w
    end.
Proof.
  unfold executeWithPropagation, bind. rewrite getContextValue_ambient.
  fold (inTransaction w).
  by destruct (propagationHandlers (default (Declared REQUIRED) (propagation options))).
Qed.

Lemma inTransaction_entered_top w :
  currentStore w = None -> inTransaction (entered [] w) = false.
Proof.
  intros Hc. unfold inTransaction. rewrite ambient_entered. simpl.
  unfold storeContent. by rewrite Hc, lookup_empty.
Qed.

Lemma ambient_entered_top key w :
  currentStore w = None -> ambient key (entered [] w) = None.
Proof.
  intros Hc. rewrite ambient_entered. simpl.
  unfold storeContent. by rewrite Hc, lookup_empty.
Qed.

(** X8. A NOT_SUPPORTED operation called outside a transaction is run as
    it is, without a hook scope of its own.  Where the caller has none
    either (a top-level call, for one), a hook registration in its body
    fails with CONTEXT_NO_HOOK, the call fails with it, and nothing else
    has happened. *)
Theorem not_supported_outside_has_no_hook_scope options kind l next after w :
  initialized w = true ->
  propagation options = Some (Declared NOT_SUPPORTED) ->
  inTransaction w = false ->
  truthy (ambient HOOK_CONTEXT_KEY w) = false ->
  exists w',
    run (Invoke options (OnEvent kind l next) after) w = (Thrown CONTEXT_NO_HOOK, w') /\
    Untouched w w'.
Proof.
  intros Hi Hp Hin Hh.
  assert (forall v c, currentStore v = Some c -> inTransaction v = false ->
            truthy (ambient HOOK_CONTEXT_KEY v) = false ->
            executeWithPropagation (run (OnEvent kind l next)) options v
            = (Thrown CONTEXT_NO_HOOK, v)) as Hexec.
  { intros v c Hc Hvin Hvh. rewrite executeWithPropagation_handler, Hp. simpl.
    unfold handleNOT_SUPPORTED. rewrite Hvin. unfold bind.
    by rewrite (runOn_without_hook kind l v Hvh), Hc. }
  change (run (Invoke options (OnEvent kind l next) after))
    with (bind (wrapInTransaction (run (OnEvent kind l next)) options)
            (fun _ => run after)).
  unfold bind at 1. rewrite wrapInTransaction_initialized by done.
  destruct (currentStore w) as [c|] eqn:Hc.
  - rewrite (Hexec w c) by done. exists w. split; [done | by constructor].
  - rewrite (Hexec (entered [] w) (nextObject w)); cbn [fst snd].
    + eexists. split; [reflexivity|]. by constructor.
    + reflexivity.
    + by apply inTransaction_entered_top.
    + by rewrite ambient_entered_top.
Qed.

Lemma not_supported_outside_has_no_hook_scope_witness :
  exists w',
    run (Invoke (policy NOT_SUPPORTED) (OnEvent Commit (quiet 1) Return) Return)
      startWorld = (Thrown CONTEXT_NO_HOOK, w') /\
    Untouched startWorld w'.
Proof.
  apply (not_supported_outside_has_no_hook_scope (policy NOT_SUPPORTED)
           Commit (quiet 1) Return Return startWorld); reflexivity.
Defined.

(** X9. Inside a transaction a call under REQUIRED, SUPPORTS or MANDATORY
    is the operation itself, run in the caller's scope: the database name
    and the isolation level given in its options have no effect, two calls
    that differ in them are the same computation. *)
Theorem joining_call_ignores_options {A} (fn : M A) options1 options2 w :
  initialized w = true ->
  inTransaction w = true ->
  joins (propagation options1) = true ->
  joins (propagation options2) = true ->
  wrapInTransaction fn options1 w = fn w /\
  wrapInTransaction fn options2 w = wrapInTransaction fn options1 w.
Proof.
  intros Hi Hin H1 H2. by rewrite !wrapInTransaction_joins.
Qed.

Lemma joining_call_ignores_options_witness :
  let fn := getCurrentDatabaseInfo "default" in
  let options1 := mkOptions (Some "analytics") (Some (Declared REQUIRED)) (Some "serializable") in
  let options2 := mkOptions None (Some (Declared SUPPORTS)) None in
  wrapInTransaction fn options1 insideTransaction = fn insideTransaction /\
  wrapInTransaction fn options2 insideTransaction
    = wrapInTransaction fn options1 insideTransaction.
Proof.
  apply (joining_call_ignores_options (getCurrentDatabaseInfo "default")
           (mkOptions (Some "analytics") (Some (Declared REQUIRED)) (Some "serializable"))
           (mkOptions None (Some (Declared SUPPORTS)) None) insideTransaction);
    reflexivity.
Defined.

(** ** Attempts that fail *)























(** ** Transactions that cannot be started *)







(** ** What a call leaves in the caller's scope *)







(** X14. A call never leaves the caller in another scope or with another
    set of open transactions.  For every body (statements, hook
    registrations, calls under any policy, try/catch, context writes,
    nested scopes), every policy and every outcome, with any driver
    faults: after [wrapInTransaction(fn, options)()] the ambient store is
    the object it was, the registry of open transactions and the
    registry of databases are as before, the engine is initialised as
    before, and no store other than the caller's own was written to. *)
Theorem call_restores_scope body options w :
  Sound w ->
  let w' := (wrapInTransaction (run body) options w).2 in
  currentStore w' = currentStore w /\
  transactionDatabases w' = transactionDatabases w /\
  registeredDatabases w' = registeredDatabases w /\
  initialized w' = initialized w /\
  forall r, r < nextObject w -> Some r <> currentStore w -> maps w' !! r = maps w !! r.
Proof.
  intros Hw.
  destruct (steady_wrapInTransaction (run body) options (steady_run body) w Hw)
    as [[n c t r i d m] _].
  auto.
Qed.

Lemma call_restores_scope_witness :
  let w' := (wrapInTransaction (run (outerWithFailingInner NESTED)) (policy NEVER)
               scopedWorld).2 in
  currentStore w' = currentStore scopedWorld /\
  transactionDatabases w' = transactionDatabases scopedWorld /\
  registeredDatabases w' = registeredDatabases scopedWorld /\
  initialized w' = initialized scopedWorld /\
  forall r, r < nextObject scopedWorld -> Some r <> currentStore scopedWorld ->
            maps w' !! r = maps scopedWorld !! r.
Proof.
  apply (call_restores_scope (outerWithFailingInner NESTED) (policy NEVER) scopedWorld).
  apply Sound_scopedWorld.
Defined.



(** ** Hook scopes without a transaction *)









(** ** Initialisation options *)

Lemma initialize_verdict given d :
  (Storage.initializeDrizzleTransactionalContext given d).1
  = (Storage.initializeDrizzleTransactionalContext given Storage.data).1.
Proof.
  unfold Storage.initializeDrizzleTransactionalContext.
  destruct (negb (bool_decide (Storage.read Storage.maxHookHandlers given = _)) && _);
    [done|].
  by destruct (negb (bool_decide (Storage.read Storage.storageDriver given = _)) && _).
Qed.

Lemma initialize_outcome given d :
  Storage.initializeDrizzleTransactionalContext given d
  = if accepted given
    then (None, Storage.mkData (Storage.spread Storage.defaultOptions given) true)
    else ((Storage.initializeDrizzleTransactionalContext given Storage.data).1, d).
Proof.
  unfold accepted, Storage.initializeDrizzleTransactionalContext.
  destruct (negb (bool_decide (Storage.read Storage.maxHookHandlers given = _)) && _);
    [done|].
  by destruct (negb (bool_decide (Storage.read Storage.storageDriver given = _)) && _).
Qed.

(** X17. What [initializeDrizzleTransactionalContext] accepts, and what it
    leaves.  If it throws, [data] is as it was: the engine is not marked
    initialised by a failed call, and options set earlier stay.  If it
    returns, the engine is initialised, and each resolved option is the
    default where the argument has no such property (10 handlers, the
    AsyncLocalStorage driver), and otherwise the value given, which then
    is a positive integer, respectively the one member of
    [StorageDriver], or else [undefined]: a property that is present with
    the value [undefined] passes the validation and replaces the
    default. *)
Theorem initialization_validates given d :
  let out := Storage.initializeDrizzleTransactionalContext given d in
  let resolved := Storage.getDrizzleTransactionalOptions out.2 in
  match out.1 with
  | Some _ => out.2 = d
  | None =>
      Storage.isDrizzleTransactionalInitialized out.2 = true /\
      (match given ≫= Storage.maxHookHandlers with
       | None => Storage.maxHookHandlers resolved = Some (Storage.Integer 10)
       | Some v =>
           Storage.maxHookHandlers resolved = Some v /\
           (positiveInteger v = true \/ v = Storage.Undefined)
       end) /\
      (match given ≫= Storage.storageDriver with
       | None => Storage.storageDriver resolved = Some Storage.ASYNC_LOCAL_STORAGE
       | Some v =>
           Storage.storageDriver resolved = Some v /\
           (v = Storage.ASYNC_LOCAL_STORAGE \/ v = Storage.Undefined)
       end)
  end.
Proof.
  unfold Storage.initializeDrizzleTransactionalContext,
    Storage.getDrizzleTransactionalOptions, Storage.isDrizzleTransactionalInitialized.
  assert (forall v, v ∈ Storage.StorageDriver_values -> v = Storage.ASYNC_LOCAL_STORAGE)
    as Hmember.
  { intros v Hv. by apply list_elem_of_singleton in Hv. }
  destruct given as [[[[|z| | |]|] [[| | |s|]|]]|]; simpl;
    try destruct (Z.leb_spec z 0); simpl;
    try case_bool_decide; simpl;
    repeat split; auto;
    try (left; by apply Z.ltb_lt).
Qed.

(** X18. Initialisations do not add up.  After any number of calls, each
    with options of its own and some of them failing, the options in
    force are the defaults overridden by the options of the last call that
    returned, and by nothing else: what an earlier call set is gone, and a
    failing call in between changes nothing.  The engine is initialised if
    it was or if one of the calls returned. *)
Theorem last_accepted_initialization_decides calls d :
  Storage.initializeEach calls d
  = match lastAccepted calls with
    | Some given => Storage.mkData (Storage.spread Storage.defaultOptions given) true
    | None => d
    end /\
  Storage.isDrizzleTransactionalInitialized (Storage.initializeEach calls d)
  = Storage.isDrizzleTransactionalInitialized d || existsb accepted calls.
Proof.
  unfold lastAccepted. revert d.
  induction calls as [|given rest IH]; intros d; simpl.
  - by rewrite orb_false_r.
  - destruct (IH (Storage.initializeDrizzleTransactionalContext given d).2) as [-> ->].
    rewrite initialize_outcome.
    destruct (accepted given); simpl.
    + split; [| by rewrite orb_true_r].
      destruct (List.filter accepted rest) as [|g l]; [done|].
      change (last (given :: g :: l)) with (last (g :: l)).
      destruct (last (g :: l)) eqn:E; [done|]. by apply last_None in E.
    + done.
Qed.

(** ** [memoize] *)

Section MemoizeProperties.
Context {Args Return State Key Thrown : Type} `{Countable Key}.
Variable fn : Args -> State -> (Thrown + Return) * State.
Variable getKey : option (Args -> Key).
Variable JSON_stringify : Args -> Key.

Lemma memoize_keeps_entries args now key r :
  now.1 !! key = Some r ->
  (memoize fn getKey JSON_stringify args now).2.1 !! key = Some r.
Proof.
  intros Hr. unfold memoize. cbv zeta.
  destruct (now.1 !! keyOf getKey JSON_stringify args) as [cached|] eqn:Hc; [done|].
  destruct (fn args now.2) as [[error|result] s]; simpl; [done|].
  rewrite lookup_insert_ne; [done|]. intros E. rewrite E in Hc. congruence.
Qed.

Lemma memoizeEach_keeps_entries calls : forall now key r,
  now.1 !! key = Some r ->
  (memoizeEach fn getKey JSON_stringify calls now).1 !! key = Some r.
Proof.
  induction calls as [|args rest IH]; intros now key r Hr; simpl; [done|].
  by apply IH, memoize_keeps_entries.
Qed.

Lemma memoize_returned args now r :
  (memoize fn getKey JSON_stringify args now).1 = inr r ->
  (memoize fn getKey JSON_stringify args now).2.1
    !! keyOf getKey JSON_stringify args = Some r.
Proof.
  unfold memoize. cbv zeta.
  destruct (now.1 !! keyOf getKey JSON_stringify args) as [cached|] eqn:Hc; simpl.
  - by intros [= <-].
  - destruct (fn args now.2) as [[error|result] s]; simpl; [done|].
    intros [= <-]. by rewrite lookup_insert_eq.
Qed.

(** X19. A result that the memoized function has returned once is its
    answer for that key from then on.  After a call with [args] returned
    [r], and after any further calls, a call with arguments of the same
    key returns [r] without calling [fn]: the state [fn] works on and the
    cache are as before that call.  This holds too when the arguments
    differ from [args] (two argument lists with one key share the first
    result), and whatever [fn] would return by now. *)
Theorem memoized_answer_sticks args now r later args' :
  (memoize fn getKey JSON_stringify args now).1 = inr r ->
  keyOf getKey JSON_stringify args' = keyOf getKey JSON_stringify args ->
  let after :=
    memoizeEach fn getKey JSON_stringify later
      (memoize fn getKey JSON_stringify args now).2 in
  memoize fn getKey JSON_stringify args' after = (inr r, after).
Proof.
  intros Hr Hkey after.
  pose proof (memoizeEach_keeps_entries later _ _ _ (memoize_returned _ _ _ Hr)) as Hc.
  fold after in Hc. unfold memoize at 1. cbv zeta. by rewrite Hkey, Hc.
Qed.

End MemoizeProperties.

Lemma memoized_answer_sticks_witness :
  let fn := fun (n : nat) (calls : nat) => (@inr unit nat (n + calls), S calls) in
  let getKey := Some (fun n : nat => n `mod` 2) in
  let after := memoizeEach fn getKey id [2; 4] (memoize fn getKey id 1 (∅, 0)).2 in
  memoize fn getKey id 3 after = (inr 1, after).
Proof.
  apply (memoized_answer_sticks
           (fun (n : nat) (calls : nat) => (@inr unit nat (n + calls), S calls))
           (Some (fun n : nat => n `mod` 2)) id 1 (∅, 0) 1 [2; 4] 3); reflexivity.
Defined.

(** ** Transactions that commit *)


